(** * nrfjprog/device/nrf5x.py: session management, programming, reset, recovery

    A shallow embedding of [nrf5x.py].  The probe driver ([pynrfjprog.API]) and
    the hex parser ([pynrfjprog.Hex]) are external: the driver is a parameter
    that answers every call from the calls issued so far, and the parser is a
    parameter that maps a file name to its segments.  Every driver call is
    recorded in call order, so that properties about which calls are issued,
    how often and in which order are statements about that record.

    Conventions.
    - Python [int] is [Z]; an argument that may be [None] is [option Z];
      truthiness of such a value is [truthy] ([None] and [0] are falsy).
    - [assert] statements are enabled (the interpreter runs without [-O]).
    - [nrf.log] only prints; it issues no driver call and is left out.
    - An [API.API(device_family)] instance is identified by its family: no
      command creates two instances of one family.
    - The commands that work on a session are modelled: [erase], [halt],
      [memrd], [memwr], [program], [readback], [recover], [reset], [run] and
      [verify], and further down [readtofile] and [pinresetenable].  [ids]
      and [version] connect to no device and, like [readregs], use driver
      methods outside the interface below; they are left out. *)

From Stdlib Require Import String ZArith List Bool Lia PeanoNat.
Import ListNotations.

Local Open Scope string_scope.
Local Open Scope Z_scope.
Local Open Scope list_scope.

(** ** The driver interface, as the source uses it *)

Module API.

Inductive DeviceFamily := NRF51 | NRF52.

Inductive NrfjprogdllErr :=
| WRONG_FAMILY_FOR_DEVICE
| OTHER_DLL_ERROR (code : Z).

(** The instance returned by [API.API(device_family)]. *)
Record API := mkAPI { device_family : DeviceFamily }.

(** The driver methods called by [nrf5x.py], with the arguments of the call.
    An omitted optional argument is [None]. *)
Inductive method :=
| open
| close
| connect_to_emu_with_snr (snr : Z) (clockspeed : option Z)
| connect_to_emu_without_snr (clockspeed : option Z)
| disconnect_from_emu
| read_device_version
| connect_to_device
| read (addr : Z) (length : Z)
| write (addr : Z) (data : list Z) (flash : bool)
| write_u32 (addr : Z) (val : Z) (flash : bool)
| erase_all
| erase_page (addr : Z)
| erase_uicr
| halt
| go
| debug_reset
| pin_reset
| sys_reset
| readback_protect_ALL
| recover.

Definition family_eqb (a b : DeviceFamily) : bool :=
  match a, b with
  | NRF51, NRF51 | NRF52, NRF52 => true
  | _, _ => false
  end.

Definition err_is_wrong_family (c : NrfjprogdllErr) : bool :=
  match c with
  | WRONG_FAMILY_FOR_DEVICE => true
  | OTHER_DLL_ERROR _ => false
  end.

End API.

Import API(NRF51, NRF52, WRONG_FAMILY_FOR_DEVICE, OTHER_DLL_ERROR).

(** ** Python exceptions *)

Inductive exn :=
| APIError (err_code : API.NrfjprogdllErr)
| AssertionError (msg : string)
| TypeError (msg : string)
| AttributeError (msg : string)
| OtherException (name : string)
| NonException (name : string).

(** [except Exception] catches every exception class but the ones that derive
    from [BaseException] only ([KeyboardInterrupt], [SystemExit]). *)
Definition is_Exception (e : exn) : bool :=
  match e with
  | NonException _ => false
  | _ => true
  end.

(** ** Calls, histories and drivers *)

Abbreviation event := (API.API * API.method)%type (only parsing).
Abbreviation history := (list (API.API * API.method)) (only parsing).

(** What a driver call returns: the bytes read for [read], and a value the
    source never inspects (here the empty list) for every other method. *)
Definition payload : Type := list Z.

(** A driver answers a call from the calls issued before it. *)
Definition Driver : Type := history -> event -> exn + payload.

Record Segment := mkSegment { address : Z; data : list Z }.

(** The attributes of the [args] namespace the commands read.  An attribute
    that is [None] or missing is [None]. *)
Record Args := mkArgs {
  a_clockspeed : option Z;
  a_quiet : bool;
  a_snr : option Z;
  a_erasepage : option Z;
  a_eraseuicr : bool;
  a_addr : Z;
  a_length : option Z;
  a_val : Z;
  a_flash : bool;
  a_eraseall : bool;
  a_sectorserase : bool;
  a_sectorsanduicrerase : bool;
  a_file : string;
  a_verify : bool;
  a_debugreset : bool;
  a_pinreset : bool;
  a_systemreset : bool
}.

(** The attributes of a [NRF5x] object; [api] is unset until [__init__]
    assigns it. *)
Record NRF5x := mkNRF5x {
  clockspeed : option Z;
  quiet : bool;
  snr : option Z;
  api : option API.API
}.

Definition truthy (v : option Z) : bool :=
  match v with
  | Some n => negb (n =? 0)
  | None => false
  end.

Definition int_of (v : option Z) : Z :=
  match v with
  | Some n => n
  | None => 0
  end.

Fixpoint list_eqb (l1 l2 : list Z) : bool :=
  match l1, l2 with
  | [], [] => true
  | x :: l1', y :: l2' => (x =? y) && list_eqb l1' l2'
  | _, _ => false
  end.

(** ** The monad of the commands: driver calls and exceptions *)

Definition M (A : Type) : Type := history -> (exn + A) * history.

Definition ret {A} (x : A) : M A := fun h => (inr x, h).

Definition raise {A} (e : exn) : M A := fun h => (inl e, h).

Definition bind {A B} (m : M A) (f : A -> M B) : M B :=
  fun h =>
    match m h with
    | (inl e, h') => (inl e, h')
    | (inr x, h') => f x h'
    end.

Notation "x <- m ;; k" := (bind m (fun x => k))
  (at level 61, m at next level, right associativity).
Notation "m ;; k" := (bind m (fun _ => k))
  (at level 61, right associativity).

(** [try: body except ...: handler]; the handler says which exceptions it
    catches by returning [Some]. *)
Definition try_except {A} (body : M A) (handler : exn -> option (M A)) : M A :=
  fun h =>
    match body h with
    | (inl e, h') =>
        match handler e with
        | Some k => k h'
        | None => (inl e, h')
        end
    | r => r
    end.

Definition assert_ (b : bool) (msg : string) : M unit :=
  if b then ret tt else raise (AssertionError msg).

Fixpoint for_each {A} (l : list A) (body : A -> M unit) : M unit :=
  match l with
  | [] => ret tt
  | x :: l' => body x ;; for_each l' body
  end.

(** Python binds the arguments of a call before it runs the body: a function
    declared with [declared] positional parameters and called with [given]
    positional arguments raises [TypeError] when they differ (none of the
    functions here has defaults for the parameters concerned). *)
Definition py_call {A} (declared given : nat) (body : M A) : M A :=
  if Nat.eqb declared given then body
  else raise (TypeError "wrong number of positional arguments").

Section Commands.

Variable drv : Driver.

(** [Hex.Hex(_get_file_path(name))]: the segments of the image, or the
    exception the parser raises. *)
Variable Hex_Hex : string -> exn + list Segment.

Definition call (a : API.API) (m : API.method) : M payload :=
  fun h => (drv h (a, m), h ++ [(a, m)]).

(** [nrf.api.m(...)]: reading the attribute fails when it was never set. *)
Definition call_api (nrf : NRF5x) (m : API.method) : M payload :=
  match api nrf with
  | Some a => call a m
  | None => raise (AttributeError "NRF5x instance has no attribute 'api'")
  end.

Definition parse_hex (name : string) : M (list Segment) :=
  fun h => (Hex_Hex name, h).

(** *** class NRF5x *)

Definition _connect_to_emu (self : NRF5x) (api : API.API) : M unit :=
  if truthy (snr self) && truthy (clockspeed self) then
    call api (API.connect_to_emu_with_snr (int_of (snr self))
                (Some (int_of (clockspeed self)))) ;; ret tt
  else if truthy (snr self) then
    call api (API.connect_to_emu_with_snr (int_of (snr self)) None) ;; ret tt
  else if truthy (clockspeed self) then
    call api (API.connect_to_emu_without_snr
                (Some (int_of (clockspeed self)))) ;; ret tt
  else
    call api (API.connect_to_emu_without_snr None) ;; ret tt.

Definition _setup (self : NRF5x) : M API.API :=
  let device_family := NRF51 in
  let api := API.mkAPI device_family in
  call api API.open ;;
  _connect_to_emu self api ;;
  api <- try_except
           (call api API.read_device_version ;; ret api)
           (fun e =>
              match e with
              | APIError err_code =>
                  Some (if API.err_is_wrong_family err_code then
                          let device_family := NRF52 in
                          call api API.close ;;
                          let api := API.mkAPI device_family in
                          call api API.open ;;
                          _connect_to_emu self api ;;
                          ret api
                        else raise e)
              | _ => None
              end) ;;
  call api API.connect_to_device ;;
  ret api.

Definition NRF5x_init (args : Args) (do_not_initialize_api : bool) : M NRF5x :=
  let self := mkNRF5x (a_clockspeed args) (a_quiet args) (a_snr args) None in
  if do_not_initialize_api then ret self
  else
    a <- _setup self ;;
    ret (mkNRF5x (clockspeed self) (quiet self) (snr self) (Some a)).

Definition cleanup (self : NRF5x) : M unit :=
  call_api self API.disconnect_from_emu ;;
  call_api self API.close ;;
  ret tt.

(** *** Helper functions *)

Definition _reset (nrf : NRF5x) (args : Args) (default_sys_reset : bool) : M unit :=
  if a_debugreset args then
    call_api nrf API.debug_reset ;;
    call_api nrf API.go ;; ret tt
  else if a_pinreset args then
    call_api nrf API.pin_reset ;;
    call_api nrf API.go ;; ret tt
  else if a_systemreset args || default_sys_reset then
    call_api nrf API.sys_reset ;;
    call_api nrf API.go ;; ret tt
  else ret tt.

(** *** The commands *)

Definition erase (args : Args) : M unit :=
  nrf <- NRF5x_init args false ;;
  (if truthy (a_erasepage args) then
     call_api nrf (API.erase_page (int_of (a_erasepage args))) ;; ret tt
   else if a_eraseuicr args then
     call_api nrf API.erase_uicr ;; ret tt
   else
     call_api nrf API.erase_all ;; ret tt) ;;
  cleanup nrf.

Definition halt (args : Args) : M unit :=
  nrf <- NRF5x_init args false ;;
  call_api nrf API.halt ;;
  cleanup nrf.

Definition memrd (args : Args) : M unit :=
  nrf <- NRF5x_init args false ;;
  (let length := if truthy (a_length args) then int_of (a_length args) else 4 in
   assert_ (0 <? length) "Length (number of bytes to read) must be nonnegative." ;;
   call_api nrf (API.read (a_addr args) length) ;; ret tt) ;;
  cleanup nrf.

Definition memwr (args : Args) : M unit :=
  nrf <- NRF5x_init args false ;;
  (if a_flash args then
     call_api nrf (API.write_u32 (a_addr args) (a_val args) true) ;; ret tt
   else
     assert_ (524288 <=? a_addr args)
       "The --flash option needs to be specified when writing FLASH." ;;
     call_api nrf (API.write_u32 (a_addr args) (a_val args) false) ;; ret tt) ;;
  cleanup nrf.

(** Lines 193-198 of [program]. *)
Definition program_erase (args : Args) (nrf : NRF5x) : M unit :=
  if a_eraseall args then
    call_api nrf API.erase_all ;; ret tt
  else if a_sectorserase args then
    assert_ false "Not implemented in nrf5x.py yet."
  else if a_sectorsanduicrerase args then
    assert_ false "Not implemented in nrf5x.py yet."
  else ret tt.

(** The body of the loop of [program], lines 206-211. *)
Definition program_segment (args : Args) (nrf : NRF5x) (segment : Segment) : M unit :=
  read_data <- call_api nrf (API.read (address segment)
                               (Z.of_nat (length (data segment)))) ;;
  assert_ (list_eqb read_data (repeat 255 (length read_data)))
    "FLASH being written to must be erased." ;;
  call_api nrf (API.write (address segment) (data segment) true) ;;
  if a_verify args then
    read_data <- call_api nrf (API.read (address segment)
                                 (Z.of_nat (length (data segment)))) ;;
    assert_ (list_eqb read_data (data segment))
      "Verify failed. Data readback from memory does not match data written."
  else ret tt.

Definition program (args : Args) : M unit :=
  nrf <- NRF5x_init args false ;;
  program_erase args nrf ;;
  test_program <- parse_hex (a_file args) ;;
  for_each test_program (program_segment args nrf) ;;
  _reset nrf args false ;;
  cleanup nrf.

Definition readback (args : Args) : M unit :=
  nrf <- NRF5x_init args false ;;
  call_api nrf API.readback_protect_ALL ;;
  cleanup nrf.

(** [recover] calls [nrf._setup(args)], but [_setup] is declared as
    [def _setup(self)]: one argument beyond [self] is given where none is
    declared.  The object was built with [do_not_initialize_api = True], so
    its [api] attribute is unset. *)
Definition recover (args : Args) : M unit :=
  nrf <- NRF5x_init args true ;;
  try_except
    (py_call 0 1 (_setup nrf) ;;
     call_api nrf API.recover ;;
     cleanup nrf)
    (fun e =>
       if is_Exception e then
         Some (let api := API.mkAPI NRF52 in
               call api API.open ;;
               _connect_to_emu nrf api ;;
               call api API.recover ;;
               call api API.disconnect_from_emu ;;
               call api API.close ;;
               ret tt)
       else None).

Definition reset (args : Args) : M unit :=
  nrf <- NRF5x_init args false ;;
  _reset nrf args true ;;
  cleanup nrf.

Definition run (args : Args) : M unit :=
  nrf <- NRF5x_init args false ;;
  call_api nrf API.go ;;
  cleanup nrf.

(** The body of the loop of [verify], lines 286-287. *)
Definition verify_segment (nrf : NRF5x) (segment : Segment) : M unit :=
  read_data <- call_api nrf (API.read (address segment)
                               (Z.of_nat (length (data segment)))) ;;
  assert_ (list_eqb read_data (data segment))
    "Verify failed. Data readback from memory does not match data written.".

Definition verify (args : Args) : M unit :=
  nrf <- NRF5x_init args false ;;
  test_program <- parse_hex (a_file args) ;;
  for_each test_program (verify_segment nrf) ;;
  cleanup nrf.

End Commands.

Arguments call drv a m h /.
Arguments parse_hex Hex_Hex name h /.

(** ** Vocabulary of the statements *)

Definition is_ok {A} (r : exn + A) : bool :=
  match r with
  | inr _ => true
  | inl _ => false
  end.

(** Every call of [evs], issued in this order after [h], returns normally. *)
Fixpoint accepts (drv : Driver) (h : history) (evs : list event) : bool :=
  match evs with
  | [] => true
  | e :: evs' => is_ok (drv h e) && accepts drv (h ++ [e]) evs'
  end.

(** The probe-connect call that belongs to a combination of connection
    parameters, keyed on which of the two is present. *)
Definition signature_for (snr clockspeed : option Z) : API.method :=
  match snr, clockspeed with
  | Some s, Some c => API.connect_to_emu_with_snr s (Some c)
  | Some s, None => API.connect_to_emu_with_snr s None
  | None, Some c => API.connect_to_emu_without_snr (Some c)
  | None, None => API.connect_to_emu_without_snr None
  end.

(** What the source takes as supplied: a value that is truthy. *)
Definition supplied (v : option Z) : option Z :=
  if truthy v then v else None.

Definition emu_call (self : NRF5x) : API.method :=
  signature_for (supplied (snr self)) (supplied (clockspeed self)).

(** The reset primitive [_reset] selects when a default is in force. *)
Definition reset_primitive (args : Args) : API.method :=
  if a_debugreset args then API.debug_reset
  else if a_pinreset args then API.pin_reset
  else API.sys_reset.

Definition is_reset_primitive (m : API.method) : bool :=
  match m with
  | API.debug_reset | API.pin_reset | API.sys_reset => true
  | _ => false
  end.

Definition is_open (a : API.API) (e : event) : bool :=
  match snd e with
  | API.open => API.family_eqb (API.device_family (fst e)) (API.device_family a)
  | _ => false
  end.

Definition is_close (a : API.API) (e : event) : bool :=
  match snd e with
  | API.close => API.family_eqb (API.device_family (fst e)) (API.device_family a)
  | _ => false
  end.

Definition is_disconnect (e : event) : bool :=
  match snd e with
  | API.disconnect_from_emu => true
  | _ => false
  end.

Definition is_version_query (e : event) : bool :=
  match snd e with
  | API.read_device_version => true
  | _ => false
  end.

(** Calls that neither open nor release a handle. *)
Definition is_plain (e : event) : bool :=
  match snd e with
  | API.open | API.close | API.disconnect_from_emu => false
  | _ => true
  end.

Definition count (p : event -> bool) (h : history) : nat :=
  length (filter p h).

(** The device answers every read at [(a2, h2)] as it does at [(a1, h1)]. *)
Definition memory_unchanged (drv : Driver)
    (a1 : API.API) (h1 : history) (a2 : API.API) (h2 : history) : Prop :=
  forall addr n, drv h2 (a2, API.read addr n) = drv h1 (a1, API.read addr n).

Inductive command :=
| Erase | Halt | Memrd | Memwr | Program | Readback | Recover | Reset | Run | Verify.

Definition run_command (drv : Driver) (Hex_Hex : string -> exn + list Segment)
    (c : command) (args : Args) : M unit :=
  match c with
  | Erase => erase drv args
  | Halt => halt drv args
  | Memrd => memrd drv args
  | Memwr => memwr drv args
  | Program => program drv Hex_Hex args
  | Readback => readback drv args
  | Recover => recover drv args
  | Reset => reset drv args
  | Run => run drv args
  | Verify => verify drv Hex_Hex args
  end.

(** ** Two concrete drivers *)

(** A scripted stub: the n-th call of a run gets the n-th answer of the
    script, and returns normally with no data once the script is used up. *)
Definition stub (script : list (exn + payload)) : Driver :=
  fun h _ => nth (length h) script (inr []).

(** A simulated device: a chip of one family with byte-addressed memory.
    The version query fails with the wrong-family error on the other family,
    [read] returns the stored bytes, [write] stores them, [erase_all] and
    [recover] set every byte to 0xFF, and every other call returns. *)
Record device := mkDevice { chip : API.DeviceFamily; mem : Z -> Z }.

Fixpoint store (m : Z -> Z) (addr : Z) (bytes : list Z) : Z -> Z :=
  match bytes with
  | [] => m
  | b :: bytes' => store (fun x => if x =? addr then b else m x) (addr + 1) bytes'
  end.

Definition load (m : Z -> Z) (addr : Z) (n : Z) : list Z :=
  map (fun i => m (addr + Z.of_nat i)) (seq 0 (Z.to_nat n)).

Definition device_step (d : device) (e : event) : (exn + payload) * device :=
  match snd e with
  | API.read_device_version =>
      if API.family_eqb (API.device_family (fst e)) (chip d)
      then (inr [], d)
      else (inl (APIError WRONG_FAMILY_FOR_DEVICE), d)
  | API.read addr n => (inr (load (mem d) addr n), d)
  | API.write addr bytes _ => (inr [], mkDevice (chip d) (store (mem d) addr bytes))
  | API.erase_all | API.recover => (inr [], mkDevice (chip d) (fun _ => 255))
  | _ => (inr [], d)
  end.

Definition device_after (d : device) (h : history) : device :=
  fold_left (fun d e => snd (device_step d e)) h d.

Definition simulate (d : device) : Driver :=
  fun h e => fst (device_step (device_after d h) e).

Definition no_args : Args :=
  mkArgs None false None None false 0 None 0 false false false false "" false
    false false false.

Definition A51 : API.API := API.mkAPI NRF51.
Definition A52 : API.API := API.mkAPI NRF52.

(** *** Which handles are open

    A monitor over the calls issued and the answers the driver gave them.  A
    handle becomes open when an [open] call on it returns and closed when a
    [close] call on it returns; a call that raises changes nothing.  A handle
    is opened only while closed, and every other call, [close] included, is
    made on a handle that is open: [track] is [None] as soon as a call breaks
    this discipline. *)

Definition handles : Type := bool * bool.

Definition no_handles : handles := (false, false).

Definition holds (st : handles) (a : API.API) : bool :=
  match API.device_family a with
  | NRF51 => fst st
  | NRF52 => snd st
  end.

Definition set_handle (st : handles) (a : API.API) (b : bool) : handles :=
  match API.device_family a with
  | NRF51 => (b, snd st)
  | NRF52 => (fst st, b)
  end.

Definition only (a : API.API) : handles := set_handle no_handles a true.

Definition track_step (st : handles) (e : API.API * API.method)
    (returned : bool) : option handles :=
  match snd e with
  | API.open =>
      if holds st (fst e) then None
      else Some (if returned then set_handle st (fst e) true else st)
  | API.close =>
      if holds st (fst e)
      then Some (if returned then set_handle st (fst e) false else st)
      else None
  | _ => if holds st (fst e) then Some st else None
  end.

(** [track drv h evs st]: the handles open after the calls [evs], issued
    after [h] with the handles [st] open and answered by [drv]. *)
Fixpoint track (drv : Driver) (h evs : list (API.API * API.method))
    (st : handles) : option handles :=
  match evs with
  | [] => Some st
  | e :: evs' =>
      match track_step st e (is_ok (drv h e)) with
      | Some st' => track drv (h ++ [e]) evs' st'
      | None => None
      end
  end.

(** A plain call on the handle [a]. *)
Definition on_handle (a : API.API) (e : API.API * API.method) : Prop :=
  fst e = a /\ is_plain e = true.

(** Every run of [m] only adds calls that satisfy [P]. *)
Definition emits {A} (P : API.API * API.method -> Prop) (m : M A) : Prop :=
  forall h, exists evs, snd (m h) = h ++ evs /\ Forall P evs.

(** What a run that failed leaves behind: either its last call is an [open]
    that raised, and no handle is open; or one handle is open. *)
Definition after_failure (drv : Driver) (h evs : list (API.API * API.method))
    (st : handles) : Prop :=
  (exists a pre,
     evs = pre ++ [(a, API.open)] /\
     is_ok (drv (h ++ pre) (a, API.open)) = false /\
     st = no_handles) \/
  (exists a, st = only a).

(** The calls of the fallback path of [recover]. *)
Definition fallback_calls (self : NRF5x) : list (API.API * API.method) :=
  [(A52, API.open); (A52, emu_call self); (A52, API.recover);
   (A52, API.disconnect_from_emu); (A52, API.close)].

Definition read_of (seg : Segment) : API.method :=
  API.read (address seg) (Z.of_nat (length (data seg))).

Definition write_of (seg : Segment) : API.method :=
  API.write (address seg) (data seg) true.

(** *** Inputs of the examples *)

Definition memwr_args (flash : bool) (addr val : Z) : Args :=
  mkArgs None false None None false addr None val flash false false false ""
    false false false false.

Definition program_args (verify : bool) : Args :=
  mkArgs None false None None false 0 None 0 false false false false
    "app.hex" verify false false false.

Definition one_segment (name : string) : exn + list Segment :=
  inr [mkSegment 4096 [1; 2]].

Definition session51 : list (API.API * API.method) :=
  [(A51, API.open); (A51, API.connect_to_emu_without_snr None);
   (A51, API.read_device_version); (A51, API.connect_to_device)].

(** ** Two commands that are not implemented *)

(** [pinresetenable], lines 181-187: the condition of its [assert] is the
    name [false], which Python does not define, so evaluating it raises
    [NameError]. *)
Definition pinresetenable (drv : Driver) (args : Args) : M unit :=
  nrf <- NRF5x_init drv args false ;;
  @raise unit (OtherException "NameError: name 'false' is not defined") ;;
  cleanup drv nrf.

(** [readtofile], lines 237-244. *)
Definition readtofile (drv : Driver) (args : Args) : M unit :=
  nrf <- NRF5x_init drv args false ;;
  assert_ false "Not implemented in nrf5x.py yet." ;;
  cleanup drv nrf.

(** ** Call plans

    A plan lists the calls of a run in order, each with the test its answer
    has to pass for the run to go on. *)

Definition expect : Type := (API.API * API.method) * (payload -> bool).

Fixpoint answers (drv : Driver) (h : list (API.API * API.method))
    (plan : list expect) : bool :=
  match plan with
  | [] => true
  | (e, ok) :: plan' =>
      match drv h e with
      | inr v => ok v && answers drv (h ++ [e]) plan'
      | inl _ => false
      end
  end.

Definition calls_of (plan : list expect) : list (API.API * API.method) :=
  map fst plan.

Definition any_answer : payload -> bool := fun _ => true.

(** Every byte returned is 0xFF, however many were returned. *)
Definition reads_erased (rd : payload) : bool := forallb (Z.eqb 255) rd.

Definition reads_as (bytes : list Z) (rd : payload) : bool := list_eqb rd bytes.

(** [m] returns normally exactly when the driver answers [plan], and has
    then issued the calls of [plan] and nothing else. *)
Definition runs_plan (drv : Driver) (m : M unit) (plan : list expect) : Prop :=
  forall h,
    (answers drv h plan = true -> m h = (inr tt, h ++ calls_of plan)) /\
    (answers drv h plan = false -> is_ok (fst (m h)) = false).

Definition segment_plan (verify : bool) (a : API.API) (seg : Segment) : list expect :=
  ((a, read_of seg), reads_erased)
  :: ((a, write_of seg), any_answer)
  :: (if verify then [((a, read_of seg), reads_as (data seg))] else []).

Definition reset_plan (args : Args) (default_sys_reset : bool) (a : API.API)
    : list expect :=
  if a_debugreset args then
    [((a, API.debug_reset), any_answer); ((a, API.go), any_answer)]
  else if a_pinreset args then
    [((a, API.pin_reset), any_answer); ((a, API.go), any_answer)]
  else if a_systemreset args || default_sys_reset then
    [((a, API.sys_reset), any_answer); ((a, API.go), any_answer)]
  else [].

Definition cleanup_plan (a : API.API) : list expect :=
  [((a, API.disconnect_from_emu), any_answer); ((a, API.close), any_answer)].

Definition program_plan (args : Args) (a : API.API) (segs : list Segment)
    : list expect :=
  (if a_eraseall args then [((a, API.erase_all), any_answer)] else [])
  ++ flat_map (segment_plan (a_verify args) a) segs
  ++ reset_plan args false a
  ++ cleanup_plan a.

Definition verify_plan (a : API.API) (segs : list Segment) : list expect :=
  map (fun seg => ((a, read_of seg), reads_as (data seg))) segs
  ++ cleanup_plan a.

(** The two call sequences of [_setup]. *)
Definition setup_calls_nrf51 (self : NRF5x) : list (API.API * API.method) :=
  [(A51, API.open); (A51, emu_call self); (A51, API.read_device_version);
   (A51, API.connect_to_device)].

Definition setup_calls_nrf52 (self : NRF5x) : list (API.API * API.method) :=
  [(A51, API.open); (A51, emu_call self); (A51, API.read_device_version);
   (A51, API.close); (A52, API.open); (A52, emu_call self);
   (A52, API.connect_to_device)].

(** Calls that establish or release a session. *)
Definition is_session_call (e : API.API * API.method) : bool :=
  match snd e with
  | API.open | API.close | API.connect_to_emu_with_snr _ _
  | API.connect_to_emu_without_snr _ | API.disconnect_from_emu
  | API.read_device_version | API.connect_to_device => true
  | _ => false
  end.

Definition is_read (e : API.API * API.method) : bool :=
  match snd e with
  | API.read _ _ => true
  | _ => false
  end.

Definition is_reset_or_go (e : API.API * API.method) : bool :=
  match snd e with
  | API.debug_reset | API.pin_reset | API.sys_reset | API.go => true
  | _ => false
  end.

(** The argument of the read [memrd] issues. *)
Definition memrd_length (args : Args) : Z :=
  match a_length args with
  | Some n => if n =? 0 then 4 else n
  | None => 4
  end.

Definition erase_args (erasepage : option Z) (eraseuicr : bool) : Args :=
  mkArgs None false None erasepage eraseuicr 0 None 0 false false false false ""
    false false false false.

Definition memrd_args (addr : Z) (length : option Z) : Args :=
  mkArgs None false None None false addr length 0 false false false false ""
    false false false false.

Definition sectors_args : Args :=
  mkArgs None false None None false 0 None 0 false false true false "app.hex"
    false false false false.

Definition eraseall_args : Args :=
  mkArgs None false None None false 0 None 0 false true false false "bad.hex"
    false false false false.

Definition malformed (name : string) : exn + list Segment :=
  inl (OtherException "HexError").

Definition two_segments (name : string) : exn + list Segment :=
  inr [mkSegment 4096 [1; 2]; mkSegment 8192 [3]].

(** ** Basic facts *)

Lemma list_eqb_eq (l1 l2 : list Z) : list_eqb l1 l2 = true <-> l1 = l2.
Proof.
  revert l2; induction l1 as [|x l1 IH]; intros [|y l2]; cbn; split;
    try congruence; try reflexivity.
  - rewrite andb_true_iff, Z.eqb_eq, IH. intros [-> ->]; reflexivity.
  - intros E; injection E as -> ->. now rewrite Z.eqb_refl, (proj2 (IH l2)).
Qed.

Lemma list_eqb_neq (l1 l2 : list Z) : l1 <> l2 -> list_eqb l1 l2 = false.
Proof.
  intros N. destruct (list_eqb l1 l2) eqn:E; [|reflexivity].
  now apply list_eqb_eq in E.
Qed.

Lemma not_erased (l : list Z) :
  (exists b, In b l /\ b <> 255) -> list_eqb l (repeat 255 (length l)) = false.
Proof.
  intros (b & Hin & Hb). apply list_eqb_neq. intros E.
  rewrite E in Hin. apply repeat_spec in Hin. contradiction.
Qed.

Lemma bind_ok {A B} (m : M A) (f : A -> M B) h x h' :
  m h = (inr x, h') -> bind m f h = f x h'.
Proof. unfold bind. now intros ->. Qed.

Lemma bind_err {A B} (m : M A) (f : A -> M B) h e h' :
  m h = (inl e, h') -> bind m f h = (inl e, h').
Proof. unfold bind. now intros ->. Qed.

Lemma accepts_cons drv h e evs :
  accepts drv h (e :: evs) = true ->
  (exists v, drv h e = inr v) /\ accepts drv (h ++ [e]) evs = true.
Proof.
  cbn. rewrite andb_true_iff. intros [H1 H2]. split; [|exact H2].
  destruct (drv h e) as [x|v]; [discriminate|now exists v].
Qed.

Lemma count_app p h1 h2 : count p (h1 ++ h2) = (count p h1 + count p h2)%nat.
Proof. unfold count. now rewrite filter_app, length_app. Qed.

Lemma count_plain_zero p evs :
  (forall e, is_plain e = true -> p e = false) ->
  Forall (fun e => is_plain e = true) evs -> count p evs = 0%nat.
Proof.
  intros Hp H. unfold count. induction H as [|e evs He _ IH]; cbn; [reflexivity|].
  now rewrite (Hp e He).
Qed.

Lemma _connect_to_emu_eq drv self a :
  _connect_to_emu drv self a = (call drv a (emu_call self) ;; ret tt).
Proof.
  unfold _connect_to_emu, emu_call, supplied.
  destruct (snr self) as [s|], (clockspeed self) as [c|]; cbn;
    try destruct (s =? 0); try destruct (c =? 0); reflexivity.
Qed.

Lemma emu_call_cases self :
  (exists s c, emu_call self = API.connect_to_emu_with_snr s c) \/
  (exists c, emu_call self = API.connect_to_emu_without_snr c).
Proof.
  unfold emu_call, signature_for.
  destruct (supplied (snr self)), (supplied (clockspeed self)); eauto.
Qed.

Lemma _connect_to_emu_run drv self a h :
  _connect_to_emu drv self a h =
    (match drv h (a, emu_call self) with inl e => inl e | inr _ => inr tt end,
     h ++ [(a, emu_call self)]).
Proof.
  rewrite _connect_to_emu_eq. unfold bind; cbn.
  now destruct (drv h (a, emu_call self)).
Qed.

(** Symbolic execution of the commands: unfold the monad, then split on the
    answer of the next driver call. *)
Ltac exec :=
  rewrite ?_connect_to_emu_eq;
  cbv [bind ret raise try_except assert_ call call_api parse_hex py_call
       is_Exception API.err_is_wrong_family Nat.eqb].

Ltac next_call drv :=
  match goal with
  | |- context [drv ?h ?e] =>
      let R := fresh "R" in
      destruct (drv h e) as [?|?] eqn:R; exec
  end.

Ltac norm_history := repeat rewrite <- app_assoc; cbn [app].

Ltac answer H := norm_history; rewrite H; exec.

Ltac finish_rest := eexists; cbn [snd]; norm_history; reflexivity.

Ltac finish_path := cbn [snd]; norm_history; reflexivity.

(** ** Session Manager *)

(** C7, as amended: [_connect_to_emu] issues exactly one probe-connect call,
    and it is the one whose signature matches the combination of parameters
    that are supplied, where a parameter counts as supplied when its value is
    truthy (present and not zero). *)
Theorem connect_to_emu_matches_supplied (drv : Driver) (self : NRF5x)
    (a : API.API) (h : history) :
  snd (_connect_to_emu drv self a h) =
    h ++ [(a, signature_for (supplied (snr self)) (supplied (clockspeed self)))].
Proof.
  unfold _connect_to_emu, supplied.
  destruct (snr self) as [s|], (clockspeed self) as [c|]; cbn [truthy int_of].
  - destruct (s =? 0), (c =? 0); cbn [negb andb signature_for];
      unfold bind, call; now destruct (drv h _).
  - destruct (s =? 0); cbn [negb andb signature_for];
      unfold bind, call; now destruct (drv h _).
  - destruct (c =? 0); cbn [negb andb signature_for];
      unfold bind, call; now destruct (drv h _).
  - cbn [andb signature_for]. unfold bind, call. now destruct (drv h _).
Qed.

(** C7, as stated, fails for a serial number that is present and zero: the
    serial-only combination gets the call without arguments. *)
Lemma connect_to_emu_zero_serial :
  let self := mkNRF5x None false (Some 0) None in
  snd (_connect_to_emu (stub []) self A51 []) =
    [(A51, API.connect_to_emu_without_snr None)] /\
  snd (_connect_to_emu (stub []) self A51 []) <>
    [(A51, signature_for (snr self) (clockspeed self))].
Proof. split; [reflexivity | discriminate]. Qed.

(** C8: when the version query fails with anything but the wrong-family
    error, [_setup] raises that same exception right after the query: no
    handle is closed and nothing is opened under NRF52. *)
Theorem setup_propagates_other_errors (drv : Driver) (self : NRF5x)
    (h : history) (e : exn) :
  accepts drv h [(A51, API.open); (A51, emu_call self)] = true ->
  drv (h ++ [(A51, API.open); (A51, emu_call self)])
      (A51, API.read_device_version) = inl e ->
  e <> APIError WRONG_FAMILY_FOR_DEVICE ->
  _setup drv self h =
    (inl e, h ++ [(A51, API.open); (A51, emu_call self);
                  (A51, API.read_device_version)]).
Proof.
  intros Hacc Hq Hne.
  apply accepts_cons in Hacc as [[v1 H1] Hacc].
  apply accepts_cons in Hacc as [[v2 H2] _].
  revert Hq H2. norm_history. intros Hq H2.
  unfold _setup, A51 in *. exec.
  answer H1. answer H2. answer Hq.
  destruct e as [[|code]| | | | |]; try reflexivity.
  now elim Hne.
Qed.

Lemma setup_propagates_other_errors_witness :
  _setup (stub [inr []; inr []; inl (APIError (OTHER_DLL_ERROR (-7)))])
         (mkNRF5x None false (Some 680000001) None) [] =
    (inl (APIError (OTHER_DLL_ERROR (-7))),
     [(A51, API.open); (A51, API.connect_to_emu_with_snr 680000001 None);
      (A51, API.read_device_version)]).
Proof.
  apply (setup_propagates_other_errors
           (stub [inr []; inr []; inl (APIError (OTHER_DLL_ERROR (-7)))])
           (mkNRF5x None false (Some 680000001) None) []).
  - reflexivity.
  - reflexivity.
  - discriminate.
Defined.

(** C1: when the first version query fails with the wrong-family error,
    [_setup] closes the NRF51 handle once, then opens NRF52 and connects the
    probe with the same call, and nothing is attempted under another family;
    when these calls and the connect to the device return normally, the NRF52
    handle is returned, the connect to the device being the last call. *)
Theorem setup_wrong_family_retries_nrf52 (drv : Driver) (self : NRF5x)
    (h : history) :
  let probed := [(A51, API.open); (A51, emu_call self);
                 (A51, API.read_device_version)] in
  let retry := [(A52, API.open); (A52, emu_call self);
                (A52, API.connect_to_device)] in
  accepts drv h [(A51, API.open); (A51, emu_call self)] = true ->
  drv (h ++ [(A51, API.open); (A51, emu_call self)])
      (A51, API.read_device_version) = inl (APIError WRONG_FAMILY_FOR_DEVICE) ->
  (exists k, snd (_setup drv self h) =
               h ++ probed ++ [(A51, API.close)] ++ firstn k retry) /\
  (accepts drv (h ++ probed) ((A51, API.close) :: retry) = true ->
   _setup drv self h = (inr A52, h ++ probed ++ [(A51, API.close)] ++ retry)).
Proof.
  intros probed retry Hacc Hq. subst probed retry.
  apply accepts_cons in Hacc as [[v1 H1] Hacc].
  apply accepts_cons in Hacc as [[v2 H2] _].
  revert Hq H2. norm_history. intros Hq H2.
  unfold _setup, A51, A52 in *. exec.
  answer H1. answer H2. answer Hq. norm_history. split.
  - next_call drv; [now exists 0%nat|].
    norm_history. next_call drv; [now exists 1%nat|].
    norm_history. next_call drv; [now exists 2%nat|].
    norm_history. next_call drv; now exists 3%nat.
  - intros Hr.
    apply accepts_cons in Hr as [[v4 H4] Hr].
    apply accepts_cons in Hr as [[v5 H5] Hr].
    apply accepts_cons in Hr as [[v6 H6] Hr].
    apply accepts_cons in Hr as [[v7 H7] _].
    revert H4 H5 H6 H7. norm_history. intros H4 H5 H6 H7.
    answer H4. answer H5. answer H6. answer H7. reflexivity.
Qed.

Lemma setup_wrong_family_retries_nrf52_witness :
  let drv := simulate (mkDevice NRF52 (fun _ => 255)) in
  let self := mkNRF5x (Some 4000) false None None in
  (exists k, snd (_setup drv self []) =
     [(A51, API.open); (A51, API.connect_to_emu_without_snr (Some 4000));
      (A51, API.read_device_version); (A51, API.close)] ++
     firstn k [(A52, API.open); (A52, API.connect_to_emu_without_snr (Some 4000));
               (A52, API.connect_to_device)]) /\
  _setup drv self [] =
    (inr A52,
     [(A51, API.open); (A51, API.connect_to_emu_without_snr (Some 4000));
      (A51, API.read_device_version); (A51, API.close); (A52, API.open);
      (A52, API.connect_to_emu_without_snr (Some 4000));
      (A52, API.connect_to_device)]).
Proof.
  destruct (setup_wrong_family_retries_nrf52
              (simulate (mkDevice NRF52 (fun _ => 255)))
              (mkNRF5x (Some 4000) false None None) []) as [Hprefix Hfull].
  - reflexivity.
  - reflexivity.
  - split; [exact Hprefix | apply Hfull; reflexivity].
Defined.

(** ** Commands on an established session *)

Lemma NRF5x_init_api drv args h nrf h0 :
  NRF5x_init drv args false h = (inr nrf, h0) -> exists a, api nrf = Some a.
Proof.
  unfold NRF5x_init, bind, ret.
  destruct (_setup drv _ h) as [[e|a] h1]; [discriminate|].
  intros E; injection E as <- _. now exists a.
Qed.

(** C6: [reset] issues exactly one reset primitive, the first of debug, pin
    and system reset that is selected, system reset when none is; the resume
    call follows it immediately whenever the primitive returns, and only the
    release of the session comes after. *)
Theorem reset_one_primitive_then_go (drv : Driver) (args : Args)
    (h h0 : history) (nrf : NRF5x) (a : API.API) :
  NRF5x_init drv args false h = (inr nrf, h0) ->
  api nrf = Some a ->
  is_reset_primitive (reset_primitive args) = true /\
  (a_debugreset args = false -> a_pinreset args = false ->
   reset_primitive args = API.sys_reset) /\
  exists k, (1 <= k)%nat /\
    (is_ok (drv h0 (a, reset_primitive args)) = true -> (2 <= k)%nat) /\
    snd (reset drv args h) =
      h0 ++ firstn k [(a, reset_primitive args); (a, API.go);
                      (a, API.disconnect_from_emu); (a, API.close)].
Proof.
  intros Hinit Hapi. split; [|split].
  - unfold reset_primitive. now destruct (a_debugreset args), (a_pinreset args).
  - unfold reset_primitive. now intros -> ->.
  - unfold reset. rewrite (bind_ok _ _ _ _ _ Hinit).
    unfold _reset, cleanup, reset_primitive. rewrite orb_true_r.
    exec. rewrite Hapi.
    destruct (a_debugreset args); [|destruct (a_pinreset args)];
      (next_call drv; [exists 1%nat; cbn; repeat split; [lia|discriminate]|];
       norm_history;
       next_call drv; [exists 2%nat; cbn; repeat split; lia|];
       norm_history;
       next_call drv; [exists 3%nat; cbn; repeat split; lia|];
       norm_history;
       next_call drv; exists 4%nat; cbn; repeat split; lia).
Qed.

Lemma reset_one_primitive_then_go_witness :
  let drv := simulate (mkDevice NRF51 (fun _ => 255)) in
  let h0 := [(A51, API.open); (A51, API.connect_to_emu_without_snr None);
             (A51, API.read_device_version); (A51, API.connect_to_device)] in
  is_reset_primitive (reset_primitive no_args) = true /\
  (a_debugreset no_args = false -> a_pinreset no_args = false ->
   reset_primitive no_args = API.sys_reset) /\
  exists k, (1 <= k)%nat /\
    (is_ok (drv h0 (A51, reset_primitive no_args)) = true -> (2 <= k)%nat) /\
    snd (reset drv no_args []) =
      h0 ++ firstn k [(A51, reset_primitive no_args); (A51, API.go);
                      (A51, API.disconnect_from_emu); (A51, API.close)].
Proof.
  apply (reset_one_primitive_then_go
           (simulate (mkDevice NRF51 (fun _ => 255))) no_args []
           [(A51, API.open); (A51, API.connect_to_emu_without_snr None);
            (A51, API.read_device_version); (A51, API.connect_to_device)]
           (mkNRF5x None false None (Some A51)) A51).
  - reflexivity.
  - reflexivity.
Defined.

(** C10: without [--flash], [memwr] fails with an assertion error before any
    write when the address is below 0x80000, and otherwise issues exactly one
    non-flash word write at that address; with [--flash] it issues exactly one
    flash word write whatever the address.  Only the release of the session
    follows the write. *)
Theorem memwr_guards_flash (drv : Driver) (args : Args)
    (h h0 : history) (nrf : NRF5x) (a : API.API) :
  NRF5x_init drv args false h = (inr nrf, h0) ->
  api nrf = Some a ->
  (a_flash args = false -> a_addr args < 524288 ->
   memwr drv args h =
     (inl (AssertionError
             "The --flash option needs to be specified when writing FLASH."),
      h0)) /\
  (a_flash args = false -> 524288 <= a_addr args ->
   exists k, snd (memwr drv args h) =
     h0 ++ (a, API.write_u32 (a_addr args) (a_val args) false)
        :: firstn k [(a, API.disconnect_from_emu); (a, API.close)]) /\
  (a_flash args = true ->
   exists k, snd (memwr drv args h) =
     h0 ++ (a, API.write_u32 (a_addr args) (a_val args) true)
        :: firstn k [(a, API.disconnect_from_emu); (a, API.close)]).
Proof.
  intros Hinit Hapi.
  unfold memwr. rewrite (bind_ok _ _ _ _ _ Hinit). unfold cleanup.
  split; [|split].
  - intros -> Haddr. apply Z.leb_gt in Haddr. rewrite Haddr. reflexivity.
  - intros -> Haddr. apply Z.leb_le in Haddr. rewrite Haddr.
    exec. rewrite Hapi.
    next_call drv; [now exists 0%nat|]. norm_history.
    next_call drv; [now exists 1%nat|]. norm_history.
    next_call drv; now exists 2%nat.
  - intros ->. exec. rewrite Hapi.
    next_call drv; [now exists 0%nat|]. norm_history.
    next_call drv; [now exists 1%nat|]. norm_history.
    next_call drv; now exists 2%nat.
Qed.

Lemma memwr_guards_flash_witness :
  let drv := simulate (mkDevice NRF51 (fun _ => 255)) in
  let args := memwr_args false 4096 7 in
  let h0 := [(A51, API.open); (A51, API.connect_to_emu_without_snr None);
             (A51, API.read_device_version); (A51, API.connect_to_device)] in
  memwr drv args [] =
    (inl (AssertionError
            "The --flash option needs to be specified when writing FLASH."),
     h0).
Proof.
  intros drv args h0.
  apply (memwr_guards_flash drv args [] h0 (mkNRF5x None false None (Some A51)) A51).
  - reflexivity.
  - reflexivity.
  - reflexivity.
  - reflexivity.
Defined.

(** ** Flash Programmer *)

Lemma for_each_app_ok {A} (pre l : list A) (body : A -> M unit) h h' :
  for_each pre body h = (inr tt, h') ->
  for_each (pre ++ l) body h = for_each l body h'.
Proof.
  revert h. induction pre as [|x pre IH]; cbn [for_each app]; intros h.
  - unfold ret. now intros [= ->].
  - unfold bind. destruct (body x h) as [[e|[]] h1]; [discriminate|].
    apply IH.
Qed.

(** C4: every segment is read back before anything is written for it, and
    when a byte of that read differs from 0xFF, [program] fails at once with
    the not-erased assertion: the read is the last driver call, so nothing is
    written for the segment and no later segment is touched. *)
Theorem program_requires_erased (drv : Driver)
    (Hex_Hex : string -> exn + list Segment) (args : Args)
    (h h0 h1 h2 : history) (nrf : NRF5x) (a : API.API)
    (pre post : list Segment) (seg : Segment) (rd : list Z) :
  NRF5x_init drv args false h = (inr nrf, h0) ->
  api nrf = Some a ->
  program_erase drv args nrf h0 = (inr tt, h1) ->
  Hex_Hex (a_file args) = inr (pre ++ seg :: post) ->
  for_each pre (program_segment drv args nrf) h1 = (inr tt, h2) ->
  drv h2 (a, read_of seg) = inr rd ->
  (exists b, In b rd /\ b <> 255) ->
  (forall h', exists rest,
     snd (program_segment drv args nrf seg h') = h' ++ (a, read_of seg) :: rest) /\
  program drv Hex_Hex args h =
    (inl (AssertionError "FLASH being written to must be erased."),
     h2 ++ [(a, read_of seg)]).
Proof.
  intros Hinit Hapi Herase Hhex Hpre Hread Hdirty. split.
  - intros h'. unfold program_segment, read_of. exec. rewrite Hapi.
    next_call drv; [finish_rest|].
    match goal with |- context [list_eqb ?x ?y] => destruct (list_eqb x y) end;
      [|finish_rest].
    next_call drv; [finish_rest|].
    destruct (a_verify args); [|finish_rest].
    next_call drv; [finish_rest|].
    match goal with |- context [list_eqb ?x ?y] => destruct (list_eqb x y) end;
      finish_rest.
  - unfold program.
    rewrite (bind_ok _ _ _ _ _ Hinit), (bind_ok _ _ _ _ _ Herase).
    unfold bind at 1. cbn [parse_hex]. rewrite Hhex.
    apply bind_err. rewrite (for_each_app_ok _ _ _ _ _ Hpre).
    cbn [for_each]. apply bind_err.
    unfold program_segment. fold (read_of seg). exec. rewrite Hapi, Hread.
    now rewrite (not_erased _ Hdirty).
Qed.

(** C5: with [--verify], the range just written is read again and compared
    with the data of the segment; when the two differ, be it in one byte,
    [program] fails with the verify assertion, and when they agree the
    segment is done. *)
Theorem program_verifies_written_range (drv : Driver)
    (Hex_Hex : string -> exn + list Segment) (args : Args)
    (h h0 h1 h2 : history) (nrf : NRF5x) (a : API.API)
    (pre post : list Segment) (seg : Segment) (rd rd2 : list Z) :
  NRF5x_init drv args false h = (inr nrf, h0) ->
  api nrf = Some a ->
  program_erase drv args nrf h0 = (inr tt, h1) ->
  Hex_Hex (a_file args) = inr (pre ++ seg :: post) ->
  for_each pre (program_segment drv args nrf) h1 = (inr tt, h2) ->
  a_verify args = true ->
  drv h2 (a, read_of seg) = inr rd ->
  rd = repeat 255 (length rd) ->
  is_ok (drv (h2 ++ [(a, read_of seg)]) (a, write_of seg)) = true ->
  drv (h2 ++ [(a, read_of seg); (a, write_of seg)]) (a, read_of seg) = inr rd2 ->
  let h3 := h2 ++ [(a, read_of seg); (a, write_of seg); (a, read_of seg)] in
  (rd2 <> data seg ->
   program drv Hex_Hex args h =
     (inl (AssertionError
             "Verify failed. Data readback from memory does not match data written."),
      h3)) /\
  (rd2 = data seg -> program_segment drv args nrf seg h2 = (inr tt, h3)).
Proof.
  intros Hinit Hapi Herase Hhex Hpre Hverify Hread Herased Hwrite Hread2 h3.
  assert (Hseg : program_segment drv args nrf seg h2 =
                 (if list_eqb rd2 (data seg) then inr tt
                  else inl (AssertionError
                    "Verify failed. Data readback from memory does not match data written."),
                  h3)).
  { unfold program_segment. fold (read_of seg) (write_of seg).
    exec. rewrite Hapi, Hread, Hverify.
    rewrite (proj2 (list_eqb_eq rd _) Herased).
    destruct (drv (h2 ++ [(a, read_of seg)]) (a, write_of seg)); [discriminate|].
    norm_history. rewrite Hread2.
    subst h3. now destruct (list_eqb rd2 (data seg)). }
  split.
  - intros Hne. rewrite (list_eqb_neq _ _ Hne) in Hseg.
    unfold program.
    rewrite (bind_ok _ _ _ _ _ Hinit), (bind_ok _ _ _ _ _ Herase).
    unfold bind at 1. cbn [parse_hex]. rewrite Hhex.
    apply bind_err. rewrite (for_each_app_ok _ _ _ _ _ Hpre).
    cbn [for_each]. now apply bind_err.
  - intros Heq. now rewrite (proj2 (list_eqb_eq _ _) Heq) in Hseg.
Qed.

Lemma program_requires_erased_witness :
  let drv := simulate (mkDevice NRF51 (fun x => if x =? 4097 then 0 else 255)) in
  program drv one_segment (program_args false) [] =
    (inl (AssertionError "FLASH being written to must be erased."),
     session51 ++ [(A51, API.read 4096 2)]).
Proof.
  intros drv.
  apply (program_requires_erased drv one_segment (program_args false)
           [] session51 session51 session51
           (mkNRF5x None false None (Some A51)) A51
           [] [] (mkSegment 4096 [1; 2]) [255; 0]).
  - reflexivity.
  - reflexivity.
  - reflexivity.
  - reflexivity.
  - reflexivity.
  - reflexivity.
  - exists 0. split; [right; left; reflexivity | discriminate].
Defined.

Lemma program_verifies_written_range_witness :
  let drv := stub [inr []; inr []; inr []; inr [];
                   inr [255; 255]; inr []; inr [1; 3]] in
  program drv one_segment (program_args true) [] =
    (inl (AssertionError
            "Verify failed. Data readback from memory does not match data written."),
     session51 ++ [(A51, API.read 4096 2); (A51, API.write 4096 [1; 2] true);
                   (A51, API.read 4096 2)]).
Proof.
  intros drv.
  apply (program_verifies_written_range drv one_segment (program_args true)
           [] session51 session51 session51
           (mkNRF5x None false None (Some A51)) A51
           [] [] (mkSegment 4096 [1; 2]) [255; 255] [1; 3]).
  - reflexivity.
  - reflexivity.
  - reflexivity.
  - reflexivity.
  - reflexivity.
  - reflexivity.
  - reflexivity.
  - reflexivity.
  - reflexivity.
  - reflexivity.
  - discriminate.
Defined.

(** C9: a segment that [program] wrote and verified passes the check of
    [verify] on any later state of the session in which the device answers
    reads as it did right after the write. *)
Theorem verify_after_program_succeeds (drv : Driver) (args : Args)
    (nrf nrf' : NRF5x) (a a' : API.API) (seg : Segment) (h h' hv : history) :
  api nrf = Some a ->
  a_verify args = true ->
  program_segment drv args nrf seg h = (inr tt, h') ->
  api nrf' = Some a' ->
  memory_unchanged drv a (h ++ [(a, read_of seg); (a, write_of seg)]) a' hv ->
  verify_segment drv nrf' seg hv = (inr tt, hv ++ [(a', read_of seg)]).
Proof.
  intros Hapi Hverify Hprog Hapi' Hmem.
  pose proof (Hmem (address seg) (Z.of_nat (length (data seg)))) as Hm.
  fold (read_of seg) in Hm.
  unfold verify_segment. fold (read_of seg). exec.
  rewrite Hapi', Hm.
  revert Hprog. unfold program_segment. fold (read_of seg) (write_of seg).
  exec. rewrite Hapi, Hverify.
  destruct (drv h (a, read_of seg)) as [e|rd]; [discriminate|].
  destruct (list_eqb rd (repeat 255 (length rd))); [|discriminate].
  destruct (drv (h ++ [(a, read_of seg)]) (a, write_of seg)) as [e|w];
    [discriminate|].
  norm_history. fold (read_of seg).
  destruct (drv (h ++ [(a, read_of seg); (a, write_of seg)]) (a, read_of seg))
    as [e|rd2]; [discriminate|].
  destruct (list_eqb rd2 (data seg)); [reflexivity|discriminate].
Qed.

Lemma verify_after_program_succeeds_witness :
  let drv := simulate (mkDevice NRF51 (fun _ => 255)) in
  let nrf := mkNRF5x None false None (Some A51) in
  let seg := mkSegment 4096 [1; 2] in
  let hv := snd (program drv one_segment (program_args true) []) ++ session51 in
  verify_segment drv nrf seg hv = (inr tt, hv ++ [(A51, read_of seg)]).
Proof.
  intros drv nrf seg hv.
  apply (verify_after_program_succeeds drv (program_args true) nrf nrf A51 A51
           seg session51
           (session51 ++ [(A51, read_of seg); (A51, write_of seg);
                          (A51, read_of seg)]) hv).
  - reflexivity.
  - reflexivity.
  - reflexivity.
  - reflexivity.
  - intros addr n. reflexivity.
Defined.

(** ** Recovery Strategy *)

Lemma recover_fallback_only (drv : Driver) (args : Args) (h : history) :
  recover drv args h =
    (let api := A52 in
     call drv api API.open ;;
     _connect_to_emu drv (mkNRF5x (a_clockspeed args) (a_quiet args)
                            (a_snr args) None) api ;;
     call drv api API.recover ;;
     call drv api API.disconnect_from_emu ;;
     call drv api API.close ;;
     ret tt) h.
Proof. reflexivity. Qed.

(** When every call of the fallback path returns normally, [recover] issues
    exactly these calls: open under NRF52, connect the probe, recover,
    disconnect, close. *)
Lemma recover_fallback_sequence (drv : Driver) (args : Args) (h : history) :
  let self := mkNRF5x (a_clockspeed args) (a_quiet args) (a_snr args) None in
  accepts drv h (fallback_calls self) = true ->
  recover drv args h = (inr tt, h ++ fallback_calls self).
Proof.
  intros self Hacc. unfold fallback_calls in *.
  apply accepts_cons in Hacc as [[v1 H1] Hacc].
  apply accepts_cons in Hacc as [[v2 H2] Hacc].
  apply accepts_cons in Hacc as [[v3 H3] Hacc].
  apply accepts_cons in Hacc as [[v4 H4] Hacc].
  apply accepts_cons in Hacc as [[v5 H5] _].
  revert H1 H2 H3 H4 H5. norm_history. intros H1 H2 H3 H4 H5.
  rewrite recover_fallback_only. fold self. unfold A52 in *. exec.
  answer H1. answer H2. answer H3. answer H4. answer H5. reflexivity.
Qed.

(** C3, what the code does: the primary path of [recover] fails on the call
    [nrf._setup(args)] before any driver call, so every run is the fallback
    path: it starts by opening NRF52 and issues no version query and no call
    under NRF51, also for an unprotected NRF51 device, which family detection
    would serve. *)
Theorem recover_never_detects_family (drv : Driver) (args : Args) (h : history) :
  let self := mkNRF5x (a_clockspeed args) (a_quiet args) (a_snr args) None in
  (exists k, (1 <= k)%nat /\
     snd (recover drv args h) = h ++ firstn k (fallback_calls self)) /\
  Forall (fun e => fst e = A52 /\ is_version_query e = false)
    (fallback_calls self) /\
  recover (simulate (mkDevice NRF51 (fun _ => 255))) no_args [] =
    (inr tt, [(A52, API.open); (A52, API.connect_to_emu_without_snr None);
              (A52, API.recover); (A52, API.disconnect_from_emu);
              (A52, API.close)]).
Proof.
  intros self. split; [|split].
  - rewrite recover_fallback_only. fold self. unfold fallback_calls, A52.
    exec.
    next_call drv; [exists 1%nat; split; [lia|reflexivity]|]. norm_history.
    next_call drv; [exists 2%nat; split; [lia|reflexivity]|]. norm_history.
    next_call drv; [exists 3%nat; split; [lia|reflexivity]|]. norm_history.
    next_call drv; [exists 4%nat; split; [lia|reflexivity]|]. norm_history.
    next_call drv; exists 5%nat; (split; [lia|reflexivity]).
  - unfold fallback_calls.
    destruct (emu_call_cases self) as [(s & c & E)|(c & E)]; rewrite E;
      repeat constructor.
  - reflexivity.
Qed.

(** ** Release of the session *)

Lemma emits_ret {A} P (x : A) : emits P (ret x).
Proof. intros h. exists []. cbn. now rewrite app_nil_r. Qed.

Lemma emits_raise {A} P e : emits P (@raise A e).
Proof. intros h. exists []. cbn. now rewrite app_nil_r. Qed.

Lemma emits_bind {A B} P (m : M A) (f : A -> M B) :
  emits P m -> (forall x, emits P (f x)) -> emits P (bind m f).
Proof.
  intros Hm Hf h. destruct (Hm h) as (evs & E & F). unfold bind.
  destruct (m h) as [[e|x] h1]; cbn in E; subst h1.
  - now exists evs.
  - destruct (Hf x (h ++ evs)) as (evs' & E' & F').
    exists (evs ++ evs'). rewrite E', app_assoc. split; [reflexivity|].
    now apply Forall_app.
Qed.

Lemma emits_assert P b msg : emits P (assert_ b msg).
Proof. destruct b; [apply emits_ret | apply emits_raise]. Qed.

Lemma emits_parse_hex P Hex_Hex name : emits P (parse_hex Hex_Hex name).
Proof. intros h. exists []. cbn. now rewrite app_nil_r. Qed.

Lemma emits_call_api drv nrf a m :
  api nrf = Some a -> is_plain (a, m) = true ->
  emits (on_handle a) (call_api drv nrf m).
Proof.
  intros Hapi Hp h. unfold call_api. rewrite Hapi.
  exists [(a, m)]. split; [reflexivity|]. now repeat constructor.
Qed.

Lemma emits_for_each {A} P (l : list A) (body : A -> M unit) :
  (forall x, emits P (body x)) -> emits P (for_each l body).
Proof.
  intros Hb. induction l as [|x l IH]; cbn [for_each].
  - apply emits_ret.
  - apply emits_bind; [apply Hb | intros _; exact IH].
Qed.

Ltac plain_calls Hapi :=
  repeat first
    [ apply emits_ret
    | apply emits_raise
    | apply emits_assert
    | apply emits_parse_hex
    | apply (emits_call_api _ _ _ _ Hapi); reflexivity
    | apply emits_for_each; intros ?
    | apply emits_bind; [|intros ?]
    | match goal with |- emits _ (if ?b then _ else _) => destruct b end ].

Lemma track_app drv h evs1 evs2 st :
  track drv h (evs1 ++ evs2) st =
    match track drv h evs1 st with
    | Some st' => track drv (h ++ evs1) evs2 st'
    | None => None
    end.
Proof.
  revert h st. induction evs1 as [|e evs1 IH]; intros h st; cbn [app track].
  - now rewrite app_nil_r.
  - destruct (track_step st e (is_ok (drv h e))); [|reflexivity].
    rewrite IH, <- app_assoc. reflexivity.
Qed.

Lemma track_on_handle drv h a evs st :
  holds st a = true -> Forall (on_handle a) evs -> track drv h evs st = Some st.
Proof.
  intros Hh F. revert h.
  induction F as [|[b m] evs [Hb Hm] _ IH]; intros h; cbn [track];
    [reflexivity|].
  cbn in Hb; subst b. unfold track_step; cbn [fst snd].
  destruct m; try discriminate Hm; rewrite Hh; apply IH.
Qed.

Lemma count_on_handle a evs :
  Forall (on_handle a) evs -> count is_disconnect evs = 0%nat.
Proof.
  intros F. apply count_plain_zero.
  - intros [b m]. unfold is_plain, is_disconnect; cbn. now destruct m.
  - eapply Forall_impl; [|exact F]. now intros e [_ H].
Qed.

Lemma holds_only a : holds (only a) a = true.
Proof. now destruct a as [[|]]. Qed.

(** In a leaf of a symbolic run every answer of the driver is a hypothesis:
    bring the histories to one form and replace the answers. *)
Ltac norm_answers :=
  repeat match goal with
         | R : context [(?a ++ ?b) ++ ?c] |- _ =>
             rewrite <- (app_assoc a b c) in R; cbn [app] in R
         end.

Ltac use_answers :=
  norm_answers; norm_history;
  repeat match goal with
         | R : ?d ?h ?e = _ |- context [?d ?h ?e] => rewrite R
         end.

Ltac tracked :=
  cbn [track]; use_answers; reflexivity.

Ltac failed_open :=
  left;
  match goal with
  | |- exists a pre, ?l = _ /\ _ =>
      exists (fst (last l (A51, API.open))), (removelast l)
  end;
  split; [reflexivity|];
  split; [cbn [removelast last fst]; rewrite ?app_nil_r; use_answers; reflexivity
        | reflexivity].

Ltac failed :=
  let E := fresh in
  intros E; cbn [fst is_ok] in E;
  first [ discriminate E
        | failed_open
        | right; exists A51; reflexivity
        | right; exists A52; reflexivity ].

Ltac leaf :=
  do 2 eexists;
  split; [cbn [snd]; norm_history; reflexivity|];
  split; [tracked|];
  split; [reflexivity|];
  split; [|intros ?; failed];
  let a := fresh in let E := fresh in
  intros a E; cbn [fst] in E; first [discriminate E | now inversion E].

Lemma setup_tracks drv self h :
  exists evs st,
    snd (_setup drv self h) = h ++ evs /\
    track drv h evs no_handles = Some st /\
    count is_disconnect evs = 0%nat /\
    (forall a, fst (_setup drv self h) = inr a -> st = only a) /\
    (forall e, fst (_setup drv self h) = inl e -> after_failure drv h evs st).
Proof.
  unfold _setup. exec.
  destruct (emu_call_cases self) as [(s & c & E)|(c & E)]; rewrite E;
    clear E; unfold A51, A52.
  all: next_call drv; [leaf|].
  all: next_call drv; [leaf|].
  all: next_call drv; [|next_call drv; leaf].
  all: match goal with e : exn |- _ => destruct e as [[|code]| | | | |] end;
    try leaf.
  all: norm_history; next_call drv; [leaf|].
  all: norm_history; next_call drv; [leaf|].
  all: norm_history; next_call drv; [leaf|].
  all: norm_history; next_call drv; leaf.
Qed.

Lemma cleanup_tracks drv nrf a h :
  api nrf = Some a ->
  exists evs st,
    snd (cleanup drv nrf h) = h ++ evs /\
    track drv h evs (only a) = Some st /\
    (is_ok (fst (cleanup drv nrf h)) = true ->
     evs = [(a, API.disconnect_from_emu); (a, API.close)] /\ st = no_handles) /\
    (is_ok (fst (cleanup drv nrf h)) = false -> st = only a).
Proof.
  intros Hapi. unfold cleanup. exec. rewrite Hapi. destruct a as [[|]].
  all: next_call drv; [|norm_history; next_call drv].
  all: do 2 eexists; (split; [cbn [snd]; norm_history; reflexivity|]).
  all: split; [tracked|].
  all: cbn [fst is_ok]; split; intros E; try discriminate E.
  all: first [reflexivity | split; reflexivity].
Qed.

(** The shape every command but [recover] has: establish the session, work
    on it, release it. *)
Lemma session_tracks {A} drv args (body : NRF5x -> M A) h :
  (forall nrf a, api nrf = Some a -> emits (on_handle a) (body nrf)) ->
  let r := (nrf <- NRF5x_init drv args false ;; body nrf ;; cleanup drv nrf) h in
  exists evs st,
    snd r = h ++ evs /\
    track drv h evs no_handles = Some st /\
    (is_ok (fst r) = true ->
     st = no_handles /\ count is_disconnect evs = 1%nat /\
     exists a pre, evs = pre ++ [(a, API.disconnect_from_emu); (a, API.close)]) /\
    (is_ok (fst r) = false -> after_failure drv h evs st).
Proof.
  intros Hbody. unfold NRF5x_init.
  set (self := mkNRF5x (a_clockspeed args) (a_quiet args) (a_snr args) None).
  destruct (setup_tracks drv self h) as (evs0 & st0 & E0 & T0 & D0 & S0 & N0).
  cbv [bind ret].
  destruct (_setup drv self h) as [[e|a] h0]; cbn [fst snd] in *; subst h0.
  { exists evs0, st0. repeat split; try assumption; try discriminate.
    intros _. now apply (N0 e). }
  rewrite (S0 a eq_refl) in T0. clear S0 N0 st0.
  set (nrf := mkNRF5x _ _ _ (Some a)).
  destruct (Hbody nrf a eq_refl (h ++ evs0)) as (evs1 & E1 & F1).
  assert (T1 : track drv h (evs0 ++ evs1) no_handles = Some (only a)).
  { rewrite track_app, T0.
    apply (track_on_handle drv _ a); [apply holds_only|exact F1]. }
  destruct (body nrf (h ++ evs0)) as [[e|x] h1]; cbn [fst snd] in *; subst h1.
  { exists (evs0 ++ evs1), (only a). rewrite app_assoc.
    repeat split; try assumption; try discriminate.
    intros _. right. now exists a. }
  destruct (cleanup_tracks drv nrf a ((h ++ evs0) ++ evs1) eq_refl)
    as (evs2 & st & E2 & T2 & K1 & K2).
  exists ((evs0 ++ evs1) ++ evs2), st.
  split; [rewrite E2; now rewrite !app_assoc|].
  split; [rewrite track_app, T1, app_assoc; exact T2|].
  split.
  - intros Hok. destruct (K1 Hok) as [-> ->]. split; [reflexivity|].
    split.
    + rewrite !count_app, D0, (count_on_handle a evs1 F1). reflexivity.
    + now exists a, (evs0 ++ evs1).
  - intros Hno. right. exists a. now apply K2.
Qed.

Lemma bind_assoc_run {A B C} (m : M A) (f : A -> M B) (g : B -> M C) h :
  bind (bind m f) g h = bind m (fun x => bind (f x) g) h.
Proof. unfold bind. now destruct (m h) as [[e|x] h']. Qed.

Lemma bind_ext_run {A B} (m : M A) (f g : A -> M B) h :
  (forall x h', f x h' = g x h') -> bind m f h = bind m g h.
Proof. intros E. unfold bind. destruct (m h) as [[e|x] h']; [reflexivity|apply E]. Qed.

Lemma program_session drv Hex_Hex args h :
  program drv Hex_Hex args h =
    (nrf <- NRF5x_init drv args false ;;
     (program_erase drv args nrf ;;
      test_program <- parse_hex Hex_Hex (a_file args) ;;
      for_each test_program (program_segment drv args nrf) ;;
      _reset drv nrf args false) ;;
     cleanup drv nrf) h.
Proof.
  unfold program. apply bind_ext_run; intros nrf h1. symmetry.
  rewrite bind_assoc_run. apply bind_ext_run; intros _ h2.
  rewrite bind_assoc_run. apply bind_ext_run; intros tp h3.
  now rewrite bind_assoc_run.
Qed.

Lemma verify_session drv Hex_Hex args h :
  verify drv Hex_Hex args h =
    (nrf <- NRF5x_init drv args false ;;
     (test_program <- parse_hex Hex_Hex (a_file args) ;;
      for_each test_program (verify_segment drv nrf)) ;;
     cleanup drv nrf) h.
Proof.
  unfold verify. apply bind_ext_run; intros nrf h1. symmetry.
  now rewrite bind_assoc_run.
Qed.

Lemma recover_tracks drv args h :
  let r := recover drv args h in
  exists evs st,
    snd r = h ++ evs /\
    track drv h evs no_handles = Some st /\
    (is_ok (fst r) = true ->
     st = no_handles /\ count is_disconnect evs = 1%nat /\
     exists a pre, evs = pre ++ [(a, API.disconnect_from_emu); (a, API.close)]) /\
    (is_ok (fst r) = false -> after_failure drv h evs st).
Proof.
  cbv zeta. rewrite recover_fallback_only.
  set (self := mkNRF5x _ _ _ None). cbv zeta. exec.
  destruct (emu_call_cases self) as [(s & c & E)|(c & E)]; rewrite E;
    clear E; unfold A52.
  all: next_call drv; norm_history.
  all: try (next_call drv; norm_history).
  all: try (next_call drv; norm_history).
  all: try (next_call drv; norm_history).
  all: try (next_call drv; norm_history).
  all: do 2 eexists; (split; [cbn [snd]; reflexivity|]); (split; [tracked|]).
  all: split; [|failed].
  all: cbn [fst is_ok]; intros Hok; try discriminate Hok.
  all: split; [reflexivity|]; split; [reflexivity|].
  - now exists (API.mkAPI NRF52),
      [(API.mkAPI NRF52, API.open);
       (API.mkAPI NRF52, API.connect_to_emu_with_snr s c);
       (API.mkAPI NRF52, API.recover)].
  - now exists (API.mkAPI NRF52),
      [(API.mkAPI NRF52, API.open);
       (API.mkAPI NRF52, API.connect_to_emu_without_snr c);
       (API.mkAPI NRF52, API.recover)].
Qed.

(** C2, as amended: on every path of every command a handle is opened only
    while closed and is used and closed only while open, so no handle is
    closed twice; when [_setup] returns, the handle it returns is the only one
    open; when a command returns normally, every handle it opened is closed
    again and disconnect-and-close ran exactly once, as its last two driver
    calls; and when [_setup] or a command fails, nothing is released after
    the failure: no handle is open when the call that failed is an [open],
    and in every other case the one handle that is open stays open. *)
Theorem commands_release_on_success (drv : Driver)
    (Hex_Hex : string -> exn + list Segment) :
  (forall self h, exists evs st,
     snd (_setup drv self h) = h ++ evs /\
     track drv h evs no_handles = Some st /\
     (forall a, fst (_setup drv self h) = inr a -> st = only a) /\
     (forall e, fst (_setup drv self h) = inl e ->
      after_failure drv h evs st)) /\
  (forall c args h, exists evs st,
     snd (run_command drv Hex_Hex c args h) = h ++ evs /\
     track drv h evs no_handles = Some st /\
     (is_ok (fst (run_command drv Hex_Hex c args h)) = true ->
      st = no_handles /\ count is_disconnect evs = 1%nat /\
      exists a pre,
        evs = pre ++ [(a, API.disconnect_from_emu); (a, API.close)]) /\
     (is_ok (fst (run_command drv Hex_Hex c args h)) = false ->
      after_failure drv h evs st)).
Proof.
  split.
  - intros self h.
    destruct (setup_tracks drv self h) as (evs & st & E & T & _ & S & N).
    now exists evs, st.
  - intros c args h. destruct c; cbn [run_command].
    + apply (session_tracks drv args
               (fun nrf =>
                  if truthy (a_erasepage args) then
                    call_api drv nrf (API.erase_page (int_of (a_erasepage args))) ;;
                    ret tt
                  else if a_eraseuicr args then
                    call_api drv nrf API.erase_uicr ;; ret tt
                  else call_api drv nrf API.erase_all ;; ret tt) h).
      intros nrf a Hapi. plain_calls Hapi.
    + apply (session_tracks drv args (fun nrf => call_api drv nrf API.halt) h).
      intros nrf a Hapi. plain_calls Hapi.
    + apply (session_tracks drv args
               (fun nrf =>
                  let length := if truthy (a_length args)
                                then int_of (a_length args) else 4 in
                  assert_ (0 <? length)
                    "Length (number of bytes to read) must be nonnegative." ;;
                  call_api drv nrf (API.read (a_addr args) length) ;; ret tt) h).
      intros nrf a Hapi. cbv zeta. plain_calls Hapi.
    + apply (session_tracks drv args
               (fun nrf =>
                  if a_flash args then
                    call_api drv nrf
                      (API.write_u32 (a_addr args) (a_val args) true) ;; ret tt
                  else
                    assert_ (524288 <=? a_addr args)
                      "The --flash option needs to be specified when writing FLASH." ;;
                    call_api drv nrf
                      (API.write_u32 (a_addr args) (a_val args) false) ;; ret tt) h).
      intros nrf a Hapi. plain_calls Hapi.
    + rewrite program_session.
      apply (session_tracks drv args
               (fun nrf =>
                  program_erase drv args nrf ;;
                  test_program <- parse_hex Hex_Hex (a_file args) ;;
                  for_each test_program (program_segment drv args nrf) ;;
                  _reset drv nrf args false) h).
      intros nrf a Hapi.
      unfold program_erase, program_segment, _reset. plain_calls Hapi.
    + apply (session_tracks drv args
               (fun nrf => call_api drv nrf API.readback_protect_ALL) h).
      intros nrf a Hapi. plain_calls Hapi.
    + apply recover_tracks.
    + apply (session_tracks drv args (fun nrf => _reset drv nrf args true) h).
      intros nrf a Hapi. unfold _reset. plain_calls Hapi.
    + apply (session_tracks drv args (fun nrf => call_api drv nrf API.go) h).
      intros nrf a Hapi. plain_calls Hapi.
    + rewrite verify_session.
      apply (session_tracks drv args
               (fun nrf =>
                  test_program <- parse_hex Hex_Hex (a_file args) ;;
                  for_each test_program (verify_segment drv nrf)) h).
      intros nrf a Hapi. unfold verify_segment. plain_calls Hapi.
Qed.

(** A run of [program] that succeeds: the session is released at the end. *)
Example program_success_releases :
  let drv := simulate (mkDevice NRF52 (fun _ => 255)) in
  program drv one_segment (program_args true) [] =
    (inr tt,
     [(A51, API.open); (A51, API.connect_to_emu_without_snr None);
      (A51, API.read_device_version); (A51, API.close);
      (A52, API.open); (A52, API.connect_to_emu_without_snr None);
      (A52, API.connect_to_device);
      (A52, API.read 4096 2); (A52, API.write 4096 [1; 2] true);
      (A52, API.read 4096 2);
      (A52, API.disconnect_from_emu); (A52, API.close)]).
Proof. reflexivity. Qed.

(** A run that fails on an [open]: the second one of [_setup], after the
    NRF51 handle was closed.  No handle is open when [halt] returns. *)
Example failed_open_holds_no_handle :
  let drv := stub [inr []; inr []; inl (APIError WRONG_FAMILY_FOR_DEVICE);
                   inr []; inl (OtherException "cannot open")] in
  let r := halt drv no_args [] in
  fst r = inl (OtherException "cannot open") /\
  snd r = [(A51, API.open); (A51, API.connect_to_emu_without_snr None);
           (A51, API.read_device_version); (A51, API.close); (A52, API.open)] /\
  track drv [] (snd r) no_handles = Some no_handles.
Proof. repeat split. Qed.

(** C2, as stated, fails: when the target is not erased, [program] raises the
    assertion error and returns with the NRF51 handle still open; neither
    disconnect nor close was issued. *)
Lemma program_failure_leaves_session_open :
  let drv := simulate (mkDevice NRF51 (fun x => if x =? 4097 then 0 else 255)) in
  let r := program drv one_segment (program_args false) [] in
  fst r = inl (AssertionError "FLASH being written to must be erased.") /\
  track drv [] (snd r) no_handles = Some (only A51) /\
  count (is_open A51) (snd r) = 1%nat /\
  count (is_close A51) (snd r) = 0%nat /\
  count is_disconnect (snd r) = 0%nat.
Proof. repeat split. Qed.

(** ** Runs and their call plans *)

Lemma answers_app drv h p1 p2 :
  answers drv h (p1 ++ p2) =
    answers drv h p1 && answers drv (h ++ calls_of p1) p2.
Proof.
  revert h. induction p1 as [|[e ok] p1 IH]; intros h; cbn [app answers calls_of map].
  - now rewrite app_nil_r.
  - destruct (drv h e) as [x|v]; [reflexivity|].
    rewrite IH, andb_assoc. unfold calls_of. cbn [fst].
    now rewrite <- app_assoc.
Qed.

Lemma runs_plan_ret drv : runs_plan drv (ret tt) [].
Proof.
  intros h. split; [|discriminate].
  intros _. cbn. now rewrite app_nil_r.
Qed.

Lemma runs_plan_bind drv (m1 m2 : M unit) p1 p2 :
  runs_plan drv m1 p1 -> runs_plan drv m2 p2 ->
  runs_plan drv (m1 ;; m2) (p1 ++ p2).
Proof.
  intros H1 H2 h. rewrite answers_app. unfold bind.
  destruct (H1 h) as [Hok1 Hno1].
  destruct (answers drv h p1).
  - rewrite (Hok1 eq_refl). cbn [andb].
    destruct (H2 (h ++ calls_of p1)) as [Hok2 Hno2].
    unfold calls_of in *. rewrite map_app, app_assoc. split; assumption.
  - specialize (Hno1 eq_refl). cbn [andb]. split; [discriminate|].
    intros _. destruct (m1 h) as [[e|[]] h1]; [reflexivity|discriminate Hno1].
Qed.

Lemma runs_plan_ext drv (m m' : M unit) p :
  (forall h, m h = m' h) -> runs_plan drv m p -> runs_plan drv m' p.
Proof. intros E H h. rewrite <- E. apply H. Qed.

Lemma runs_plan_for_each {A} drv (l : list A) (body : A -> M unit)
    (plan : A -> list expect) :
  (forall x, runs_plan drv (body x) (plan x)) ->
  runs_plan drv (for_each l body) (flat_map plan l).
Proof.
  intros Hb. induction l as [|x l IH]; cbn [for_each flat_map].
  - apply runs_plan_ret.
  - apply runs_plan_bind; [apply Hb | exact IH].
Qed.

Lemma runs_plan_call drv nrf a m :
  api nrf = Some a ->
  runs_plan drv (call_api drv nrf m ;; ret tt) [((a, m), any_answer)].
Proof.
  intros Hapi h. unfold call_api. rewrite Hapi. exec. cbn [answers calls_of map fst].
  destruct (drv h (a, m)); split; try discriminate; reflexivity.
Qed.

(** The test of [program] on the bytes read back does not depend on how many
    bytes the driver returned. *)
Lemma erased_test (rd : list Z) :
  list_eqb rd (repeat 255 (length rd)) = reads_erased rd.
Proof.
  unfold reads_erased. induction rd as [|b rd IH]; cbn; [reflexivity|].
  now rewrite IH, Z.eqb_sym.
Qed.

Lemma program_segment_plan drv args nrf a seg :
  api nrf = Some a ->
  runs_plan drv (program_segment drv args nrf seg)
    (segment_plan (a_verify args) a seg).
Proof.
  intros Hapi h. unfold program_segment, segment_plan.
  fold (read_of seg) (write_of seg). exec. rewrite Hapi.
  cbn [answers calls_of map fst].
  destruct (drv h (a, read_of seg)) as [e|rd]; [split; [discriminate|reflexivity]|].
  rewrite erased_test.
  destruct (reads_erased rd); [|split; [discriminate|reflexivity]].
  cbn [andb].
  destruct (drv (h ++ [(a, read_of seg)]) (a, write_of seg)) as [e|w];
    [split; [discriminate|reflexivity]|].
  unfold any_answer at 1. cbn [andb].
  destruct (a_verify args); cbn [answers calls_of map fst].
  - norm_history.
    destruct (drv (h ++ [(a, read_of seg); (a, write_of seg)]) (a, read_of seg))
      as [e|rd2]; [split; [discriminate|reflexivity]|].
    unfold reads_as. rewrite andb_true_r.
    destruct (list_eqb rd2 (data seg)); split;
      try discriminate; reflexivity.
  - norm_history. split; [reflexivity|discriminate].
Qed.

Lemma verify_segment_plan drv nrf a seg :
  api nrf = Some a ->
  runs_plan drv (verify_segment drv nrf seg)
    [((a, read_of seg), reads_as (data seg))].
Proof.
  intros Hapi h. unfold verify_segment. fold (read_of seg). exec. rewrite Hapi.
  cbn [answers calls_of map fst].
  destruct (drv h (a, read_of seg)) as [e|rd]; [split; [discriminate|reflexivity]|].
  unfold reads_as. rewrite andb_true_r.
  destruct (list_eqb rd (data seg)); split; try discriminate; reflexivity.
Qed.

Lemma reset_runs_plan drv nrf args default_sys_reset a :
  api nrf = Some a ->
  runs_plan drv (_reset drv nrf args default_sys_reset)
    (reset_plan args default_sys_reset a).
Proof.
  intros Hapi. unfold _reset, reset_plan.
  destruct (a_debugreset args); [|destruct (a_pinreset args);
    [|destruct (a_systemreset args || default_sys_reset)]].
  4: apply runs_plan_ret.
  all: intros h; unfold call_api; rewrite Hapi; exec;
    cbn [answers calls_of map fst].
  all: next_call drv; [split; [discriminate|reflexivity]|].
  all: unfold any_answer; cbn [andb].
  all: next_call drv; norm_history; split; try discriminate; reflexivity.
Qed.

Lemma cleanup_runs_plan drv nrf a :
  api nrf = Some a -> runs_plan drv (cleanup drv nrf) (cleanup_plan a).
Proof.
  intros Hapi h. unfold cleanup, cleanup_plan, call_api. rewrite Hapi. exec.
  cbn [answers calls_of map fst].
  destruct (drv h (a, API.disconnect_from_emu));
    [split; [discriminate|reflexivity]|].
  unfold any_answer; cbn [andb].
  destruct (drv (h ++ [(a, API.disconnect_from_emu)]) (a, API.close));
    norm_history; split; try discriminate; reflexivity.
Qed.

Lemma flat_map_single {A B} (f : A -> B) (l : list A) :
  flat_map (fun x => [f x]) l = map f l.
Proof. induction l as [|x l IH]; cbn; [reflexivity|now rewrite IH]. Qed.

(** X1: once the session is established and the image is parsed, [program]
    returns normally exactly when the driver answers its plan: the erase when
    requested, then for each segment in image order a read that returns only
    0xFF bytes, the write and, with [--verify], a read that returns the data
    of the segment, then the reset pair when a reset flag is set, then
    disconnect and close.  It has then issued these calls and no other. *)
Theorem program_runs_its_plan (drv : Driver)
    (Hex_Hex : string -> exn + list Segment) (args : Args)
    (h h0 : history) (nrf : NRF5x) (a : API.API) (segs : list Segment) :
  NRF5x_init drv args false h = (inr nrf, h0) ->
  api nrf = Some a ->
  Hex_Hex (a_file args) = inr segs ->
  (a_eraseall args = true \/
   (a_sectorserase args = false /\ a_sectorsanduicrerase args = false)) ->
  (answers drv h0 (program_plan args a segs) = true ->
   program drv Hex_Hex args h =
     (inr tt, h0 ++ calls_of (program_plan args a segs))) /\
  (answers drv h0 (program_plan args a segs) = false ->
   is_ok (fst (program drv Hex_Hex args h)) = false).
Proof.
  intros Hinit Hapi Hhex Himpl.
  unfold program. rewrite (bind_ok _ _ _ _ _ Hinit).
  assert (R : runs_plan drv
                (program_erase drv args nrf ;;
                 test_program <- parse_hex Hex_Hex (a_file args) ;;
                 for_each test_program (program_segment drv args nrf) ;;
                 _reset drv nrf args false ;; cleanup drv nrf)
                (program_plan args a segs)); [|exact (R h0)].
  unfold program_plan. apply runs_plan_bind.
  - unfold program_erase.
    destruct (a_eraseall args).
    + now apply runs_plan_call.
    + destruct Himpl as [Himpl|[-> ->]]; [discriminate|]. apply runs_plan_ret.
  - apply (runs_plan_ext drv
             (for_each segs (program_segment drv args nrf) ;;
              _reset drv nrf args false ;; cleanup drv nrf)).
    { intros h1. unfold bind at 3. cbn [parse_hex]. now rewrite Hhex. }
    apply runs_plan_bind.
    + apply runs_plan_for_each. intros seg. now apply program_segment_plan.
    + apply runs_plan_bind.
      * now apply reset_runs_plan.
      * now apply cleanup_runs_plan.
Qed.

Lemma program_runs_its_plan_witness :
  let drv := simulate (mkDevice NRF51 (fun _ => 255)) in
  program drv two_segments (program_args true) [] =
    (inr tt,
     session51 ++
     [(A51, API.read 4096 2); (A51, API.write 4096 [1; 2] true);
      (A51, API.read 4096 2);
      (A51, API.read 8192 1); (A51, API.write 8192 [3] true);
      (A51, API.read 8192 1);
      (A51, API.disconnect_from_emu); (A51, API.close)]).
Proof.
  intros drv.
  apply (program_runs_its_plan drv two_segments (program_args true)
           [] session51 (mkNRF5x None false None (Some A51)) A51
           [mkSegment 4096 [1; 2]; mkSegment 8192 [3]]).
  - reflexivity.
  - reflexivity.
  - reflexivity.
  - right. split; reflexivity.
  - reflexivity.
Defined.

(** X2: once the session is established and the image is parsed, [verify]
    returns normally exactly when every segment, read in image order, reads
    back as its data and disconnect and close return; it has then issued one
    read per segment, disconnect and close, and no other call.  For an image
    without segments it releases the session at once. *)
Theorem verify_runs_its_plan (drv : Driver)
    (Hex_Hex : string -> exn + list Segment) (args : Args)
    (h h0 : history) (nrf : NRF5x) (a : API.API) (segs : list Segment) :
  NRF5x_init drv args false h = (inr nrf, h0) ->
  api nrf = Some a ->
  Hex_Hex (a_file args) = inr segs ->
  (answers drv h0 (verify_plan a segs) = true ->
   verify drv Hex_Hex args h = (inr tt, h0 ++ calls_of (verify_plan a segs))) /\
  (answers drv h0 (verify_plan a segs) = false ->
   is_ok (fst (verify drv Hex_Hex args h)) = false) /\
  (segs = [] ->
   calls_of (verify_plan a segs) =
     [(a, API.disconnect_from_emu); (a, API.close)]).
Proof.
  intros Hinit Hapi Hhex.
  unfold verify. rewrite (bind_ok _ _ _ _ _ Hinit).
  assert (R : runs_plan drv
                (test_program <- parse_hex Hex_Hex (a_file args) ;;
                 for_each test_program (verify_segment drv nrf) ;;
                 cleanup drv nrf)
                (verify_plan a segs)).
  { apply (runs_plan_ext drv
             (for_each segs (verify_segment drv nrf) ;; cleanup drv nrf)).
    { intros h1. unfold bind at 2. cbn [parse_hex]. now rewrite Hhex. }
    unfold verify_plan. apply runs_plan_bind.
    - rewrite <- flat_map_single. apply runs_plan_for_each.
      intros seg. now apply verify_segment_plan.
    - now apply cleanup_runs_plan. }
  split; [exact (proj1 (R h0))|]. split; [exact (proj2 (R h0))|].
  now intros ->.
Qed.

Lemma verify_runs_its_plan_witness :
  let drv := simulate (mkDevice NRF51 (store (store (fun _ => 255) 4096 [1; 2])
                                         8192 [3])) in
  verify drv two_segments (program_args true) [] =
    (inr tt,
     session51 ++
     [(A51, API.read 4096 2); (A51, API.read 8192 1);
      (A51, API.disconnect_from_emu); (A51, API.close)]).
Proof.
  intros drv.
  apply (verify_runs_its_plan drv two_segments (program_args true)
           [] session51 (mkNRF5x None false None (Some A51)) A51
           [mkSegment 4096 [1; 2]; mkSegment 8192 [3]]).
  - reflexivity.
  - reflexivity.
  - reflexivity.
  - reflexivity.
Defined.

(** X3: [verify] stops at the first segment that does not read back as its
    data: it fails with the verify assertion, the read of that segment is the
    last driver call, no later segment is read and the session is not
    released. *)
Theorem verify_stops_at_first_mismatch (drv : Driver)
    (Hex_Hex : string -> exn + list Segment) (args : Args)
    (h h0 h2 : history) (nrf : NRF5x) (a : API.API)
    (pre post : list Segment) (seg : Segment) (rd : list Z) :
  NRF5x_init drv args false h = (inr nrf, h0) ->
  api nrf = Some a ->
  Hex_Hex (a_file args) = inr (pre ++ seg :: post) ->
  for_each pre (verify_segment drv nrf) h0 = (inr tt, h2) ->
  drv h2 (a, read_of seg) = inr rd ->
  rd <> data seg ->
  verify drv Hex_Hex args h =
    (inl (AssertionError
            "Verify failed. Data readback from memory does not match data written."),
     h2 ++ [(a, read_of seg)]).
Proof.
  intros Hinit Hapi Hhex Hpre Hread Hne.
  unfold verify. rewrite (bind_ok _ _ _ _ _ Hinit).
  unfold bind at 1. cbn [parse_hex]. rewrite Hhex.
  apply bind_err. rewrite (for_each_app_ok _ _ _ _ _ Hpre).
  cbn [for_each]. apply bind_err.
  unfold verify_segment. fold (read_of seg). exec.
  now rewrite Hapi, Hread, (list_eqb_neq _ _ Hne).
Qed.

Lemma verify_stops_at_first_mismatch_witness :
  let drv := simulate (mkDevice NRF51 (store (fun _ => 255) 4096 [1; 2])) in
  verify drv two_segments (program_args true) [] =
    (inl (AssertionError
            "Verify failed. Data readback from memory does not match data written."),
     session51 ++ [(A51, API.read 4096 2); (A51, API.read 8192 1)]).
Proof.
  intros drv.
  apply (verify_stops_at_first_mismatch drv two_segments (program_args true)
           [] session51 (session51 ++ [(A51, API.read 4096 2)])
           (mkNRF5x None false None (Some A51)) A51
           [mkSegment 4096 [1; 2]] [] (mkSegment 8192 [3]) [255]).
  - reflexivity.
  - reflexivity.
  - reflexivity.
  - reflexivity.
  - reflexivity.
  - discriminate.
Defined.

(** X4: the image is parsed only after the session is established and, for
    [program], after the erase: when the parser raises, [program] with
    [--eraseall] has already erased the device, and both [program] and
    [verify] return the parser's exception with no segment touched and the
    session not released. *)
Theorem parse_failure_after_erase (drv : Driver)
    (Hex_Hex : string -> exn + list Segment) (args : Args)
    (h h0 : history) (nrf : NRF5x) (a : API.API) (e : exn) :
  NRF5x_init drv args false h = (inr nrf, h0) ->
  api nrf = Some a ->
  Hex_Hex (a_file args) = inl e ->
  (a_eraseall args = true -> is_ok (drv h0 (a, API.erase_all)) = true ->
   program drv Hex_Hex args h = (inl e, h0 ++ [(a, API.erase_all)])) /\
  (a_eraseall args = false -> a_sectorserase args = false ->
   a_sectorsanduicrerase args = false ->
   program drv Hex_Hex args h = (inl e, h0)) /\
  verify drv Hex_Hex args h = (inl e, h0).
Proof.
  intros Hinit Hapi Hhex. split; [|split].
  - intros He Hok. unfold program. rewrite (bind_ok _ _ _ _ _ Hinit).
    unfold program_erase. rewrite He. exec. rewrite Hapi.
    destruct (drv h0 (a, API.erase_all)); [discriminate|].
    now rewrite Hhex.
  - intros He Hs Hu. unfold program. rewrite (bind_ok _ _ _ _ _ Hinit).
    unfold program_erase. rewrite He, Hs, Hu. exec. now rewrite Hhex.
  - unfold verify. rewrite (bind_ok _ _ _ _ _ Hinit). exec. now rewrite Hhex.
Qed.

Lemma parse_failure_after_erase_witness :
  let drv := simulate (mkDevice NRF51 (fun _ => 0)) in
  program drv malformed eraseall_args [] =
    (inl (OtherException "HexError"), session51 ++ [(A51, API.erase_all)]).
Proof.
  intros drv.
  apply (parse_failure_after_erase drv malformed eraseall_args
           [] session51 (mkNRF5x None false None (Some A51)) A51
           (OtherException "HexError")).
  - reflexivity.
  - reflexivity.
  - reflexivity.
  - reflexivity.
  - reflexivity.
Defined.

(** X5: [program] with [--sectorserase] or [--sectorsanduicrerase] and
    without [--eraseall] fails with the not-implemented assertion as soon as
    the session is established: the image is never parsed, nothing is erased,
    read or written, and the session is not released. *)
Theorem program_sector_erase_not_implemented (drv : Driver)
    (Hex_Hex : string -> exn + list Segment) (args : Args)
    (h h0 : history) (nrf : NRF5x) :
  NRF5x_init drv args false h = (inr nrf, h0) ->
  a_eraseall args = false ->
  a_sectorserase args = true \/ a_sectorsanduicrerase args = true ->
  program drv Hex_Hex args h =
    (inl (AssertionError "Not implemented in nrf5x.py yet."), h0).
Proof.
  intros Hinit He Hs. unfold program. rewrite (bind_ok _ _ _ _ _ Hinit).
  apply bind_err. unfold program_erase. rewrite He.
  destruct (a_sectorserase args); [reflexivity|].
  destruct Hs as [Hs | ->]; [discriminate | reflexivity].
Qed.

Lemma program_sector_erase_not_implemented_witness :
  let drv := simulate (mkDevice NRF51 (fun _ => 255)) in
  program drv malformed sectors_args [] =
    (inl (AssertionError "Not implemented in nrf5x.py yet."), session51).
Proof.
  intros drv.
  apply (program_sector_erase_not_implemented drv malformed sectors_args
           [] session51 (mkNRF5x None false None (Some A51))).
  - reflexivity.
  - reflexivity.
  - left. reflexivity.
Defined.

(** X6: the erased test of [program] looks only at the bytes the driver
    returned, not at how many were asked for: whenever every returned byte is
    0xFF, and so also when the read returns fewer bytes than the segment has
    or none, the write of the segment is issued. *)
Theorem program_erased_test_ignores_length (drv : Driver) (args : Args)
    (nrf : NRF5x) (a : API.API) (seg : Segment) (h : history) (rd : list Z) :
  api nrf = Some a ->
  drv h (a, read_of seg) = inr rd ->
  Forall (fun b => b = 255) rd ->
  exists rest,
    snd (program_segment drv args nrf seg h) =
      h ++ (a, read_of seg) :: (a, write_of seg) :: rest.
Proof.
  intros Hapi Hread Hall.
  assert (Ht : reads_erased rd = true).
  { unfold reads_erased. apply forallb_forall. intros b Hb.
    rewrite Forall_forall in Hall. rewrite (Hall b Hb). reflexivity. }
  unfold program_segment. fold (read_of seg) (write_of seg). exec.
  rewrite Hapi, Hread, erased_test, Ht.
  next_call drv; [finish_rest|].
  destruct (a_verify args); [|finish_rest].
  next_call drv; [finish_rest|].
  match goal with |- context [list_eqb ?x ?y] => destruct (list_eqb x y) end;
    finish_rest.
Qed.

Lemma program_erased_test_ignores_length_witness :
  let drv := stub [inr []] in
  exists rest,
    snd (program_segment drv (program_args false)
           (mkNRF5x None false None (Some A51)) (mkSegment 4096 [1; 2]) []) =
      (A51, API.read 4096 2) :: (A51, API.write 4096 [1; 2] true) :: rest.
Proof.
  intros drv.
  apply (program_erased_test_ignores_length drv (program_args false)
           (mkNRF5x None false None (Some A51)) A51 (mkSegment 4096 [1; 2])
           [] []).
  - reflexivity.
  - reflexivity.
  - constructor.
Defined.

(** ** More on the Session Manager *)

(** X7: when the calls of the NRF51 sequence return normally, the version
    query included, [_setup] stays on NRF51: it closes nothing, opens nothing
    under NRF52 and returns the NRF51 handle, the connect to the device being
    its last call. *)
Theorem setup_stays_on_nrf51 (drv : Driver) (self : NRF5x) (h : history) :
  accepts drv h (setup_calls_nrf51 self) = true ->
  _setup drv self h = (inr A51, h ++ setup_calls_nrf51 self).
Proof.
  intros Hacc. unfold setup_calls_nrf51 in *.
  apply accepts_cons in Hacc as [[v1 H1] Hacc].
  apply accepts_cons in Hacc as [[v2 H2] Hacc].
  apply accepts_cons in Hacc as [[v3 H3] Hacc].
  apply accepts_cons in Hacc as [[v4 H4] _].
  revert H2 H3 H4. norm_history. intros H2 H3 H4.
  unfold _setup, A51 in *. exec.
  answer H1. answer H2. answer H3. answer H4. reflexivity.
Qed.

Lemma setup_stays_on_nrf51_witness :
  let drv := simulate (mkDevice NRF51 (fun _ => 255)) in
  let self := mkNRF5x (Some 1000) false (Some 680000001) None in
  _setup drv self [] =
    (inr A51,
     [(A51, API.open);
      (A51, API.connect_to_emu_with_snr 680000001 (Some 1000));
      (A51, API.read_device_version); (A51, API.connect_to_device)]).
Proof.
  intros drv self.
  apply (setup_stays_on_nrf51 drv self []).
  reflexivity.
Defined.

Ltac pick_prefix :=
  first
    [ exists 1%nat; split; [lia|]; left; reflexivity
    | exists 2%nat; split; [lia|]; left; reflexivity
    | exists 3%nat; split; [lia|]; left; reflexivity
    | exists 4%nat; split; [lia|]; left; reflexivity
    | exists 4%nat; split; [lia|]; right; split; [lia|reflexivity]
    | exists 5%nat; split; [lia|]; right; split; [lia|reflexivity]
    | exists 6%nat; split; [lia|]; right; split; [lia|reflexivity]
    | exists 7%nat; split; [lia|]; right; split; [lia|reflexivity] ].

Ltac shape_leaf :=
  eexists;
  split; [cbn [snd]; norm_history; reflexivity|];
  split; [pick_prefix|];
  split; [cbn; lia|];
  let a := fresh in let E := fresh in
  intros a E; cbn [fst] in E; first [discriminate E | now inversion E].

(** X8: whatever the driver answers, the calls of [_setup] are a beginning
    of one of two sequences: open, probe connect, version query and connect
    to the device, all under NRF51; or the first three of these, close of
    NRF51, then open, probe connect and connect to the device under NRF52.
    So it queries the version at most once, and never under NRF52, and when
    it returns a handle it has issued the whole sequence of that family. *)
Theorem setup_call_sequences (drv : Driver) (self : NRF5x) (h : history) :
  exists evs,
    snd (_setup drv self h) = h ++ evs /\
    (exists k, (1 <= k)%nat /\
       (evs = firstn k (setup_calls_nrf51 self) \/
        ((4 <= k)%nat /\ evs = firstn k (setup_calls_nrf52 self)))) /\
    (count is_version_query evs <= 1)%nat /\
    (forall a, fst (_setup drv self h) = inr a ->
       evs = match API.device_family a with
             | NRF51 => setup_calls_nrf51 self
             | NRF52 => setup_calls_nrf52 self
             end).
Proof.
  unfold _setup, setup_calls_nrf51, setup_calls_nrf52. exec.
  destruct (emu_call_cases self) as [(s & c & E)|(c & E)]; rewrite E;
    clear E; unfold A51, A52.
  all: next_call drv; [shape_leaf|].
  all: next_call drv; [shape_leaf|].
  all: next_call drv; [|next_call drv; shape_leaf].
  all: match goal with e : exn |- _ => destruct e as [[|code]| | | | |] end;
    try shape_leaf.
  all: norm_history; next_call drv; [shape_leaf|].
  all: norm_history; next_call drv; [shape_leaf|].
  all: norm_history; next_call drv; [shape_leaf|].
  all: norm_history; next_call drv; shape_leaf.
Qed.

(** X9: only the version query is guarded.  When open, the probe connect or
    the connect to the device under NRF51 raises, [_setup] returns that
    exception at once, the wrong-family error included: nothing is retried
    under NRF52 and the NRF51 handle is not closed. *)
Theorem setup_retries_only_on_query (drv : Driver) (self : NRF5x)
    (h : history) (k : nat) (e : exn) :
  k = 0%nat \/ k = 1%nat \/ k = 3%nat ->
  accepts drv h (firstn k (setup_calls_nrf51 self)) = true ->
  drv (h ++ firstn k (setup_calls_nrf51 self))
      (nth k (setup_calls_nrf51 self) (A51, API.open)) = inl e ->
  _setup drv self h = (inl e, h ++ firstn (S k) (setup_calls_nrf51 self)).
Proof.
  unfold setup_calls_nrf51.
  intros [-> | [-> | ->]] Hacc He; cbn [firstn nth] in *.
  - rewrite app_nil_r in He.
    unfold _setup, A51 in *. exec. answer He. reflexivity.
  - apply accepts_cons in Hacc as [[v1 H1] _].
    unfold _setup, A51 in *. exec. answer H1. answer He. reflexivity.
  - apply accepts_cons in Hacc as [[v1 H1] Hacc].
    apply accepts_cons in Hacc as [[v2 H2] Hacc].
    apply accepts_cons in Hacc as [[v3 H3] _].
    revert H2 H3. norm_history. intros H2 H3.
    unfold _setup, A51 in *. exec.
    answer H1. answer H2. answer H3. answer He. reflexivity.
Qed.

Lemma setup_retries_only_on_query_witness :
  let drv := stub [inr []; inr []; inr [];
                   inl (APIError WRONG_FAMILY_FOR_DEVICE)] in
  let self := mkNRF5x None false None None in
  _setup drv self [] =
    (inl (APIError WRONG_FAMILY_FOR_DEVICE),
     [(A51, API.open); (A51, API.connect_to_emu_without_snr None);
      (A51, API.read_device_version); (A51, API.connect_to_device)]).
Proof.
  intros drv self.
  apply (setup_retries_only_on_query drv self [] 3
           (APIError WRONG_FAMILY_FOR_DEVICE)).
  - right. right. reflexivity.
  - reflexivity.
  - reflexivity.
Defined.

(** ** More on the commands *)

(** X10: [erase] issues exactly one erase call, chosen by truthiness: the
    page erase for a page address that is given and not zero; otherwise,
    also for page address 0, the UICR erase when [--eraseuicr] is set and the
    erase of the whole chip when it is not.  Only the release of the session
    follows. *)
Theorem erase_selects_one_call (drv : Driver) (args : Args)
    (h h0 : history) (nrf : NRF5x) (a : API.API) :
  NRF5x_init drv args false h = (inr nrf, h0) ->
  api nrf = Some a ->
  (forall p, a_erasepage args = Some p -> p <> 0 ->
   exists k, snd (erase drv args h) =
     h0 ++ (a, API.erase_page p)
        :: firstn k [(a, API.disconnect_from_emu); (a, API.close)]) /\
  (a_erasepage args = None \/ a_erasepage args = Some 0 ->
   exists k, snd (erase drv args h) =
     h0 ++ (a, if a_eraseuicr args then API.erase_uicr else API.erase_all)
        :: firstn k [(a, API.disconnect_from_emu); (a, API.close)]).
Proof.
  intros Hinit Hapi.
  unfold erase. rewrite (bind_ok _ _ _ _ _ Hinit). unfold cleanup.
  split.
  - intros p Hp Hnz. rewrite Hp. cbn [truthy int_of].
    apply Z.eqb_neq in Hnz. rewrite Hnz. cbn [negb].
    exec. rewrite Hapi.
    next_call drv; [now exists 0%nat|]. norm_history.
    next_call drv; [now exists 1%nat|]. norm_history.
    next_call drv; now exists 2%nat.
  - intros Hp.
    assert (Ht : truthy (a_erasepage args) = false)
      by (destruct Hp as [-> | ->]; reflexivity).
    rewrite Ht. destruct (a_eraseuicr args); exec; rewrite Hapi.
    all: next_call drv; [now exists 0%nat|]; norm_history.
    all: next_call drv; [now exists 1%nat|]; norm_history.
    all: next_call drv; now exists 2%nat.
Qed.

Lemma erase_selects_one_call_witness :
  let drv := simulate (mkDevice NRF51 (fun _ => 0)) in
  exists k,
    snd (erase drv (erase_args (Some 0) false) []) =
      session51 ++ (A51, API.erase_all)
        :: firstn k [(A51, API.disconnect_from_emu); (A51, API.close)].
Proof.
  intros drv.
  apply (erase_selects_one_call drv (erase_args (Some 0) false) [] session51
           (mkNRF5x None false None (Some A51)) A51).
  - reflexivity.
  - reflexivity.
  - right. reflexivity.
Defined.

(** X11: [memrd] reads the number of bytes asked for, and 4 bytes when no
    length or length 0 is given; for a negative length it fails with the
    assertion error before any read.  It never issues a read of no bytes or
    of a negative number of bytes. *)
Theorem memrd_reads_positive_length (drv : Driver) (args : Args)
    (h h0 : history) (nrf : NRF5x) (a : API.API) :
  NRF5x_init drv args false h = (inr nrf, h0) ->
  api nrf = Some a ->
  (memrd_length args <= 0 ->
   memrd_length args < 0 /\
   memrd drv args h =
     (inl (AssertionError
             "Length (number of bytes to read) must be nonnegative."), h0)) /\
  (0 < memrd_length args ->
   exists k, snd (memrd drv args h) =
     h0 ++ (a, API.read (a_addr args) (memrd_length args))
        :: firstn k [(a, API.disconnect_from_emu); (a, API.close)]).
Proof.
  intros Hinit Hapi.
  unfold memrd. rewrite (bind_ok _ _ _ _ _ Hinit). unfold cleanup.
  assert (Hl : (if truthy (a_length args) then int_of (a_length args) else 4)
               = memrd_length args).
  { unfold memrd_length. destruct (a_length args) as [n|]; cbn; [|reflexivity].
    now destruct (n =? 0). }
  cbv zeta. rewrite Hl. split.
  - intros Hle.
    assert (Hlt : memrd_length args < 0).
    { unfold memrd_length in *. destruct (a_length args) as [n|]; [|lia].
      destruct (n =? 0) eqn:En; [lia|]. apply Z.eqb_neq in En. lia. }
    split; [exact Hlt|].
    apply Z.ltb_ge in Hle. rewrite Hle. reflexivity.
  - intros Hpos. apply Z.ltb_lt in Hpos. rewrite Hpos.
    exec. rewrite Hapi.
    next_call drv; [now exists 0%nat|]. norm_history.
    next_call drv; [now exists 1%nat|]. norm_history.
    next_call drv; now exists 2%nat.
Qed.

Lemma memrd_reads_positive_length_witness :
  let drv := simulate (mkDevice NRF51 (fun _ => 255)) in
  exists k,
    snd (memrd drv (memrd_args 4096 (Some 0)) []) =
      session51 ++ (A51, API.read 4096 4)
        :: firstn k [(A51, API.disconnect_from_emu); (A51, API.close)].
Proof.
  intros drv.
  apply (memrd_reads_positive_length drv (memrd_args 4096 (Some 0)) []
           session51 (mkNRF5x None false None (Some A51)) A51).
  - reflexivity.
  - reflexivity.
  - reflexivity.
Defined.

(** X12: [pinresetenable] and [readtofile] never return normally, whatever
    the driver answers.  Once the session is established, the first raises
    [NameError] (its assert names the undefined [false]) and the second the
    not-implemented assertion error; no further driver call is issued, so
    the session is not released. *)
Theorem unimplemented_commands_fail (drv : Driver) (args : Args) (h : history) :
  is_ok (fst (pinresetenable drv args h)) = false /\
  is_ok (fst (readtofile drv args h)) = false /\
  (forall nrf h0, NRF5x_init drv args false h = (inr nrf, h0) ->
     pinresetenable drv args h =
       (inl (OtherException "NameError: name 'false' is not defined"), h0) /\
     readtofile drv args h =
       (inl (AssertionError "Not implemented in nrf5x.py yet."), h0)).
Proof.
  unfold pinresetenable, readtofile. split; [|split].
  - unfold bind at 1.
    destruct (NRF5x_init drv args false h) as [[e|nrf] h0]; reflexivity.
  - unfold bind at 1.
    destruct (NRF5x_init drv args false h) as [[e|nrf] h0]; reflexivity.
  - intros nrf h0 Hinit. now rewrite !(bind_ok _ _ _ _ _ Hinit).
Qed.

Lemma emits_weaken {A} (P Q : API.API * API.method -> Prop) (m : M A) :
  (forall e, P e -> Q e) -> emits P m -> emits Q m.
Proof.
  intros HPQ Hm h. destruct (Hm h) as (evs & E & F).
  exists evs. split; [exact E|]. eapply Forall_impl; [exact HPQ|exact F].
Qed.

Lemma emits_call_api_any drv P nrf m :
  (forall a, P (a, m)) -> emits P (call_api drv nrf m).
Proof.
  intros HP h. unfold call_api. destruct (api nrf) as [a|].
  - exists [(a, m)]. split; [reflexivity|]. now repeat constructor.
  - exists []. cbn. now rewrite app_nil_r.
Qed.

Lemma setup_emits_session_calls drv self :
  emits (fun e => is_session_call e = true) (_setup drv self).
Proof.
  intros h. unfold _setup. exec.
  destruct (emu_call_cases self) as [(s & c & E)|(c & E)]; rewrite E;
    clear E; unfold A51, A52.
  all: next_call drv; [eexists; split; [finish_path|repeat constructor]|].
  all: next_call drv; [eexists; split; [finish_path|repeat constructor]|].
  all: next_call drv;
    [|next_call drv; eexists; (split; [finish_path|repeat constructor])].
  all: match goal with e : exn |- _ => destruct e as [[|code]| | | | |] end;
    try (eexists; split; [finish_path|repeat constructor]).
  all: norm_history; next_call drv;
    [eexists; split; [finish_path|repeat constructor]|].
  all: norm_history; next_call drv;
    [eexists; split; [finish_path|repeat constructor]|].
  all: norm_history; next_call drv;
    [eexists; split; [finish_path|repeat constructor]|].
  all: norm_history; next_call drv;
    eexists; (split; [finish_path|repeat constructor]).
Qed.

Lemma init_emits_session_calls drv args b :
  emits (fun e => is_session_call e = true) (NRF5x_init drv args b).
Proof.
  unfold NRF5x_init. destruct b; [apply emits_ret|].
  apply emits_bind; [apply setup_emits_session_calls|].
  intros a. apply emits_ret.
Qed.

Ltac any_calls :=
  repeat first
    [ apply emits_ret
    | apply emits_raise
    | apply emits_assert
    | apply emits_parse_hex
    | apply emits_call_api_any; intros ?; reflexivity
    | apply emits_for_each; intros ?
    | apply emits_bind; [|intros ?]
    | match goal with |- emits _ (if ?b then _ else _) => destruct b end ].

(** X13: whatever the driver answers and whatever the image holds, [verify]
    changes nothing on the target: besides the calls that establish and
    release the session it issues only reads. *)
Theorem verify_only_reads (drv : Driver)
    (Hex_Hex : string -> exn + list Segment) (args : Args) (h : history) :
  exists evs,
    snd (verify drv Hex_Hex args h) = h ++ evs /\
    Forall (fun e => is_session_call e || is_read e = true) evs.
Proof.
  revert h. change (emits (fun e => is_session_call e || is_read e = true)
                      (verify drv Hex_Hex args)).
  unfold verify. apply emits_bind.
  - eapply emits_weaken; [|apply init_emits_session_calls].
    intros e He. cbv beta in He. now rewrite He.
  - intros nrf. unfold verify_segment, cleanup. any_calls.
Qed.

(** X14: [program] restarts the target only on request: when none of
    [--debugreset], [--pinreset] and [--systemreset] is given, it issues no
    reset call and no resume call, whatever the driver answers. *)
Theorem program_resets_only_on_request (drv : Driver)
    (Hex_Hex : string -> exn + list Segment) (args : Args) (h : history) :
  a_debugreset args = false ->
  a_pinreset args = false ->
  a_systemreset args = false ->
  exists evs,
    snd (program drv Hex_Hex args h) = h ++ evs /\
    Forall (fun e => is_reset_or_go e = false) evs.
Proof.
  intros Hd Hp Hs. revert h.
  change (emits (fun e => is_reset_or_go e = false) (program drv Hex_Hex args)).
  unfold program. apply emits_bind.
  - eapply emits_weaken; [|apply init_emits_session_calls].
    intros [a m] He. destruct m; try discriminate He; reflexivity.
  - intros nrf.
    unfold program_erase, program_segment, _reset, cleanup.
    rewrite Hd, Hp, Hs. cbn [orb]. any_calls.
Qed.

Lemma program_resets_only_on_request_witness :
  let drv := simulate (mkDevice NRF51 (fun _ => 255)) in
  exists evs,
    snd (program drv two_segments (program_args true) []) = [] ++ evs /\
    Forall (fun e => is_reset_or_go e = false) evs.
Proof.
  intros drv.
  apply (program_resets_only_on_request drv two_segments (program_args true) []).
  - reflexivity.
  - reflexivity.
  - reflexivity.
Defined.

(** X15: [recover] runs its fallback sequence once: when open under NRF52,
    the probe connect chosen from the serial number and clock speed, recover,
    disconnect and close all return, it returns normally having issued these
    five calls; when one of them raises, it returns that exception with the
    call as its last: nothing is retried and the calls left, the release of
    the handle among them, are not issued. *)
Theorem recover_fallback_runs_once (drv : Driver) (args : Args) (h : history) :
  let self := mkNRF5x (a_clockspeed args) (a_quiet args) (a_snr args) None in
  (accepts drv h (fallback_calls self) = true ->
   recover drv args h = (inr tt, h ++ fallback_calls self)) /\
  (forall k e, (k < 5)%nat ->
     accepts drv h (firstn k (fallback_calls self)) = true ->
     drv (h ++ firstn k (fallback_calls self))
         (nth k (fallback_calls self) (A52, API.open)) = inl e ->
     recover drv args h = (inl e, h ++ firstn (S k) (fallback_calls self))).
Proof.
  intros self. split; [apply recover_fallback_sequence|].
  intros k e Hk Hacc He. rewrite recover_fallback_only. fold self.
  unfold fallback_calls, A52 in *. exec.
  destruct k as [|[|[|[|[|k]]]]]; [| | | | |lia]; cbn [firstn nth] in *.
  - rewrite app_nil_r in He. answer He. reflexivity.
  - apply accepts_cons in Hacc as [[v1 H1] _].
    answer H1. answer He. reflexivity.
  - apply accepts_cons in Hacc as [[v1 H1] Hacc].
    apply accepts_cons in Hacc as [[v2 H2] _].
    revert H2. norm_history. intros H2.
    answer H1. answer H2. answer He. reflexivity.
  - apply accepts_cons in Hacc as [[v1 H1] Hacc].
    apply accepts_cons in Hacc as [[v2 H2] Hacc].
    apply accepts_cons in Hacc as [[v3 H3] _].
    revert H2 H3. norm_history. intros H2 H3.
    answer H1. answer H2. answer H3. answer He. reflexivity.
  - apply accepts_cons in Hacc as [[v1 H1] Hacc].
    apply accepts_cons in Hacc as [[v2 H2] Hacc].
    apply accepts_cons in Hacc as [[v3 H3] Hacc].
    apply accepts_cons in Hacc as [[v4 H4] _].
    revert H2 H3 H4. norm_history. intros H2 H3 H4.
    answer H1. answer H2. answer H3. answer H4. answer He. reflexivity.
Qed.

Lemma recover_fallback_runs_once_witness :
  let args := mkArgs None false (Some 680000001) None false 0 None 0 false
                false false false "" false false false false in
  recover (stub []) args [] =
    (inr tt,
     [(A52, API.open); (A52, API.connect_to_emu_with_snr 680000001 None);
      (A52, API.recover); (A52, API.disconnect_from_emu); (A52, API.close)]) /\
  recover (stub [inr []; inr []; inl (APIError (OTHER_DLL_ERROR (-90)))])
          args [] =
    (inl (APIError (OTHER_DLL_ERROR (-90))),
     [(A52, API.open); (A52, API.connect_to_emu_with_snr 680000001 None);
      (A52, API.recover)]).
Proof.
  intros args. split.
  - apply (proj1 (recover_fallback_runs_once (stub []) args [])).
    reflexivity.
  - apply (proj2 (recover_fallback_runs_once
                    (stub [inr []; inr []; inl (APIError (OTHER_DLL_ERROR (-90)))])
                    args []) 2%nat (APIError (OTHER_DLL_ERROR (-90)))).
    + lia.
    + reflexivity.
    + reflexivity.
Defined.
